(** * Inventory system: a shallow embedding of [inventory_system.py]

    The module keeps one process-wide dictionary [stock_data] from item
    names to quantities, validates the arguments of every operation with
    run-time type checks, logs a diagnostic for what it does and persists
    the dictionary as a JSON object.

    The embedding follows the module function by function:
    - Python values that reach the functions are terms of [pyval], so that
      the [isinstance] checks of the source are real case distinctions;
    - the interpreter state the functions touch (the dictionary, the files,
      the records handed to [logging]) is the record [world];
    - a function is a computation [M A]: it takes a world and gives back an
      outcome (a value or a raised exception) together with the world at
      that point, so that what a call did before it raised stays visible. *)

From Stdlib Require Import ZArith Lia Ascii String SpecFloat.
From stdpp Require Import base tactics option list gmap strings sorting pretty.

Local Open Scope Z_scope.

#[local] Set Warnings "-register-all".

(** ** Python values *)

(** The values the functions can be handed: what [json.load] builds
    ([None], [bool], [int], [float], [str], [list], [dict]) and what a
    caller passes as an argument.  A [float] is an IEEE 754 value in the
    style of [SpecFloat]: a zero, an infinity, a NaN, or [(-1)^s * m * 2^e].
    A [dict] is the sequence of its items in iteration order. *)
Inductive pyval :=
  | VNone
  | VBool (b : bool)
  | VInt (n : Z)
  | VFloat (f : spec_float)
  | VStr (s : string)
  | VList (l : list pyval)
  | VDict (items : list (pyval * pyval)).

(** The exception classes that occur in the module. *)
Inductive exn :=
  | TypeError
  | ValueError
  | OverflowError
  | OSError
  | FileNotFoundError
  | JSONDecodeError
  | UnicodeDecodeError
  | UnicodeEncodeError
  | RecursionError.

Global Instance exn_eq_dec : EqDecision exn.
Proof. solve_decision. Defined.

(** [exn_isa e c]: an exception of class [e] is caught by [except c].
    [FileNotFoundError] derives from [OSError]; [json.JSONDecodeError],
    [UnicodeDecodeError] and [UnicodeEncodeError] derive from [ValueError]. *)
Definition exn_isa (e c : exn) : bool :=
  match e, c with
  | FileNotFoundError, OSError => true
  | JSONDecodeError, ValueError => true
  | UnicodeDecodeError, ValueError => true
  | UnicodeEncodeError, ValueError => true
  | _, _ => bool_decide (e = c)
  end.

Inductive outcome (A : Type) :=
  | Ret (a : A)
  | Raise (e : exn).
Global Arguments Ret {A} a.
Global Arguments Raise {A} e.

(** [isinstance(v, str)] and [isinstance(v, int)].  [bool] is a subclass of
    [int], so [True] and [False] pass the second test, with values 1 and 0. *)
Definition isinstance_str (v : pyval) : bool :=
  match v with VStr _ => true | _ => false end.

Definition isinstance_int (v : pyval) : bool :=
  match v with VInt _ | VBool _ => true | _ => false end.

(** The integer an [int] instance stands for in arithmetic and comparisons. *)
Definition int_value (v : pyval) : option Z :=
  match v with
  | VInt n => Some n
  | VBool b => Some (if b then 1 else 0)
  | _ => None
  end.

(** ** The builtin [int(val)] *)

(** [int] of a float truncates toward zero; it raises [ValueError] on NaN
    and [OverflowError] on an infinity. *)
Definition int_of_float (f : spec_float) : outcome Z :=
  match f with
  | S754_zero _ => Ret 0
  | S754_infinity _ => Raise OverflowError
  | S754_nan => Raise ValueError
  | S754_finite s m e =>
      let magnitude := Z.shiftl (Z.pos m) e in
      Ret (if s then - magnitude else magnitude)
  end.

(** *** Text

    A [str] is held as the bytes of its UTF-8 encoding, a lone surrogate
    being encoded like any other code point of three bytes.  The order of
    the bytes is then the order of the code points, which is how Python
    compares strings. *)

Definition byte (c : ascii) : Z := Z.of_N (N_of_ascii c).

Definition char_of (b : Z) : ascii := ascii_of_N (Z.to_N b).

(** The payload of a continuation byte [10xxxxxx]. *)
Definition continuation (c : ascii) : option Z :=
  let b := byte c in
  if (128 <=? b) && (b <=? 191) then Some (b - 128) else None.

(** The Unicode database of the interpreter (Unicode 14.0.0, CPython 3.11),
    for the code points from 128 on: the characters on which
    [Py_UNICODE_ISSPACE] holds, and the zeros of the runs of ten decimal
    digits on which [Py_UNICODE_TODECIMAL] gives 0 to 9. *)
Definition unicode_spaces : list Z :=
  [133; 160; 5760; 8192; 8193; 8194; 8195; 8196; 8197; 8198; 8199; 8200; 8201;
   8202; 8232; 8233; 8239; 8287; 12288].

Definition decimal_zeros : list Z :=
  [1632; 1776; 1984; 2406; 2534; 2662; 2790; 2918; 3046; 3174; 3302; 3430; 3558;
   3664; 3792; 3872; 4160; 4240; 6112; 6160; 6470; 6608; 6784; 6800; 6992; 7088;
   7232; 7248; 42528; 43216; 43264; 43472; 43504; 43600; 44016; 65296; 66720;
   68912; 69734; 69872; 69942; 70096; 70384; 70736; 70864; 71248; 71360; 71472;
   71904; 72016; 72784; 73040; 73120; 92768; 92864; 93008; 120782; 120792;
   120802; 120812; 120822; 123200; 123632; 125264; 130032].

Definition unicode_space (cp : Z) : bool :=
  bool_decide (cp ∈ unicode_spaces).

Definition unicode_decimal (cp : Z) : option Z :=
  (λ zero, cp - zero)
    <$> List.find (λ zero, (zero <=? cp) && (cp <? zero + 10)) decimal_zeros.

(** What [int] makes of a character that is not ASCII before it parses: a
    space for a Unicode space, the ASCII digit for a Unicode decimal digit;
    any other character makes the literal invalid. *)
Definition ascii_of_code_point (cp : Z) : option ascii :=
  if unicode_space cp then Some " "%char
  else (λ d, char_of (48 + d)) <$> unicode_decimal cp.

(** The text with every character that is not ASCII replaced in that way.
    The lead byte tells the length of a character; a sequence that no code
    point is encoded by (a stray continuation byte, a form longer than
    needed, a value above 10FFFF) stands for no text and gives [None]. *)
Fixpoint ascii_form (s : string) : option string :=
  match s with
  | EmptyString => Some EmptyString
  | String c0 rest =>
      let b0 := byte c0 in
      if b0 <? 128 then String c0 <$> ascii_form rest
      else if b0 <? 192 then None
      else
        match rest with
        | String c1 rest1 =>
            if b0 <? 224 then
              x1 ← continuation c1;
              let cp := (b0 - 192) * 64 + x1 in
              if cp <? 128 then None
              else c ← ascii_of_code_point cp; String c <$> ascii_form rest1
            else
              match rest1 with
              | String c2 rest2 =>
                  if b0 <? 240 then
                    x1 ← continuation c1; x2 ← continuation c2;
                    let cp := (b0 - 224) * 4096 + x1 * 64 + x2 in
                    if cp <? 2048 then None
                    else c ← ascii_of_code_point cp; String c <$> ascii_form rest2
                  else
                    match rest2 with
                    | String c3 rest3 =>
                        if b0 <? 248 then
                          x1 ← continuation c1; x2 ← continuation c2;
                          x3 ← continuation c3;
                          let cp := (b0 - 240) * 262144 + x1 * 4096 + x2 * 64 + x3 in
                          if (cp <? 65536) || (1114111 <? cp) then None
                          else c ← ascii_of_code_point cp;
                               String c <$> ascii_form rest3
                        else None
                    | EmptyString => None
                    end
              | EmptyString => None
              end
        | EmptyString => None
        end
  end.

(** [int] of text, base ten, as [PyLong_FromString] reads the ASCII form:
    optional whitespace on both sides ([Py_ISSPACE]: the bytes 9 to 13 and
    32), an optional sign, then decimal digits in which single underscores
    may separate digits. *)
Definition is_space (c : ascii) : bool :=
  let n := nat_of_ascii c in
  ((9 <=? n)%nat && (n <=? 13)%nat) || (n =? 32)%nat.

Definition digit_of (c : ascii) : option Z :=
  let n := nat_of_ascii c in
  if ((48 <=? n)%nat && (n <=? 57)%nat)%bool then Some (Z.of_nat n - 48) else None.

Fixpoint lstrip (s : string) : string :=
  match s with
  | String c rest => if is_space c then lstrip rest else s
  | EmptyString => EmptyString
  end.

Definition strip (s : string) : string :=
  String.rev (lstrip (String.rev (lstrip s))).

(** [after_digit] tells whether the previous character was a digit: an
    underscore is accepted only there, and the text may end only there. *)
Fixpoint digits_value (acc : Z) (after_digit : bool) (s : string) : option Z :=
  match s with
  | EmptyString => if after_digit then Some acc else None
  | String c rest =>
      match digit_of c with
      | Some d => digits_value (10 * acc + d) true rest
      | None =>
          if (Ascii.eqb c "_" && after_digit)%bool
          then digits_value acc false rest
          else None
      end
  end.

Definition int_of_ascii_text (s : string) : option Z :=
  let body := strip s in
  let '(negative, digits) :=
    match body with
    | String "-" rest => (true, rest)
    | String "+" rest => (false, rest)
    | _ => (false, body)
    end in
  (λ n, if negative then - n else n) <$> digits_value 0 false digits.

Definition int_of_text (s : string) : outcome Z :=
  match ascii_form s ≫= int_of_ascii_text with
  | Some n => Ret n
  | None => Raise ValueError
  end.

Definition py_int (v : pyval) : outcome Z :=
  match v with
  | VNone => Raise TypeError
  | VBool b => Ret (if b then 1 else 0)
  | VInt n => Ret n
  | VFloat f => int_of_float f
  | VStr s => int_of_text s
  | VList _ => Raise TypeError
  | VDict _ => Raise TypeError
  end.

(** ** The interpreter state *)

(** What a file holds is represented by what [json.load] makes of it: bytes
    that are not UTF-8 ([Undecodable]), text that is not JSON ([Garbled]),
    JSON nested deeper than the interpreter recurses ([TooDeep]), or the
    Python value the text decodes to. *)
Inductive content :=
  | Undecodable
  | Garbled
  | TooDeep
  | Document (data : pyval).

(** The exception with which [json.load] leaves [load_data] uncaught. *)
Definition decode_error (c : content) : option exn :=
  match c with
  | Undecodable => Some UnicodeDecodeError
  | TooDeep => Some RecursionError
  | Garbled | Document _ => None
  end.

(** What is found at a path: a regular file with its read and write
    permissions, or something that cannot be opened in any mode (a
    directory, a path below a missing directory).  A path with no node does
    not exist and can be created. *)
Inductive node :=
  | File (readable writable : bool) (c : content)
  | Blocked.

(** The records passed to [logging], with the arguments of their format
    strings. *)
Inductive level := INFO | WARNING | ERROR.

Inductive message :=
  | Added (qty : Z) (item : string)
  | ItemNotFound (item : string)
  | Removed (qty : Z) (item : string)
  | FileMissing (file_path : string)
  | ParseFailed
  | ReadFailed (file_path : string)
  | InvalidFormat
  | SkippedKey (key : pyval)
  | SkippedInvalid (key : string) (val : pyval)
  | SkippedNegative (key : string) (quantity : Z)
  | Loaded (file_path : string)
  | Saved (file_path : string)
  | SaveFailed (file_path : string).

Record world := World {
  stock_data : gmap string Z;
  disk : gmap string node;
  console : list (level * message)
}.

(** ** Computations *)

Definition M (A : Type) : Type := world → outcome A * world.

Definition ret {A} (a : A) : M A := λ w, (Ret a, w).

Definition raise {A} (e : exn) : M A := λ w, (Raise e, w).

Definition bind {A B} (c : M A) (k : A → M B) : M B :=
  λ w, match c w with
       | (Ret a, w') => k a w'
       | (Raise e, w') => (Raise e, w')
       end.

(** [try c except e: handler e]; a handler that gives [None] does not
    match, and the exception goes on to the caller. *)
Definition try_except {A} (c : M A) (handler : exn → option (M A)) : M A :=
  λ w, match c w with
       | (Raise e, w') =>
           match handler e with
           | Some h => h w'
           | None => (Raise e, w')
           end
       | r => r
       end.

Declare Scope py_scope.
Delimit Scope py_scope with py.
Notation "x <- c ;; k" := (bind c (λ x, k))
  (at level 100, c at next level, right associativity) : py_scope.
Notation "c ;; k" := (bind c (λ _, k))
  (at level 100, right associativity) : py_scope.
Local Open Scope py_scope.

Definition get_stock : M (gmap string Z) := λ w, (Ret (stock_data w), w).

Definition set_stock (s : gmap string Z) : M unit :=
  λ w, (Ret tt, World s (disk w) (console w)).

Definition logging (l : level) (m : message) : M unit :=
  λ w, (Ret tt, World (stock_data w) (disk w) (console w ++ [(l, m)])).

(** A [for] loop that threads a local variable through its body. *)
Fixpoint for_each {A S} (l : list A) (body : S → A → M S) (s : S) : M S :=
  match l with
  | [] => ret s
  | x :: rest => s' <- body s x ;; for_each rest body s'
  end.

(** ** Files *)

(** The paths that [open] refuses before it looks at the file system, here
    on a POSIX system whose file system encoding is UTF-8 with
    [surrogateescape]: a path with a surrogate other than DC80 to DCFF
    cannot be encoded ([UnicodeEncodeError]), and a path with a NUL
    character is refused with [ValueError].  The surrogates are the bytes
    [ED A0..BF xx], those that are escapes [ED B2 xx] and [ED B3 xx]. *)
Definition has_nul (file_path : string) : bool :=
  bool_decide ("000"%char ∈ list_ascii_of_string file_path).

Fixpoint unencodable (file_path : string) : bool :=
  match file_path with
  | String c0 rest =>
      match rest with
      | String c1 _ =>
          ((byte c0 =? 237) && (160 <=? byte c1) && (byte c1 <=? 191)
             && negb ((byte c1 =? 178) || (byte c1 =? 179)))
          || unencodable rest
      | EmptyString => false
      end
  | EmptyString => false
  end.

Definition open_error (file_path : string) : option exn :=
  if unencodable file_path then Some UnicodeEncodeError
  else if has_nul file_path then Some ValueError
  else None.

(** [open(file_path, "r", encoding="utf-8")] followed by [json.load(file)]. *)
Definition json_load (file_path : string) : M pyval :=
  λ w, match open_error file_path with
       | Some e => (Raise e, w)
       | None =>
           match disk w !! file_path with
           | None => (Raise FileNotFoundError, w)
           | Some Blocked => (Raise OSError, w)
           | Some (File readable _ c) =>
               if readable then
                 match c with
                 | Undecodable => (Raise UnicodeDecodeError, w)
                 | Garbled => (Raise JSONDecodeError, w)
                 | TooDeep => (Raise RecursionError, w)
                 | Document data => (Ret data, w)
                 end
               else (Raise OSError, w)
           end
       end.

Definition key_le (a b : string * Z) : Prop := String.leb a.1 b.1 = true.

Global Instance key_le_dec a b : Decision (key_le a b).
Proof. unfold key_le. apply _. Defined.

(** A key as [json.load] reads back what [json.dump] wrote for it.  The
    text is written with every character that is not ASCII as an escape, a
    lone surrogate as its own escape, and read back with a high surrogate
    escape directly followed by a low one taken as the single character the
    two encode; any other text comes back as it was.  On the bytes: the high
    surrogates are [ED A0..AF xx], the low ones [ED B0..BF xx]. *)
Definition surrogate_pair (c0 c1 c2 c3 c4 c5 : ascii) : option Z :=
  let in_range lo b hi := (lo <=? b) && (b <=? hi) in
  if (byte c0 =? 237) && in_range 160 (byte c1) 175 && in_range 128 (byte c2) 191
     && (byte c3 =? 237) && in_range 176 (byte c4) 191 && in_range 128 (byte c5) 191
  then Some (65536
             + ((byte c1 - 160) * 64 + (byte c2 - 128)) * 1024
             + ((byte c4 - 176) * 64 + (byte c5 - 128)))
  else None.

Definition utf8_of_astral (cp : Z) : string :=
  String (char_of (240 + cp / 262144))
    (String (char_of (128 + (cp / 4096) mod 64))
       (String (char_of (128 + (cp / 64) mod 64))
          (String (char_of (128 + cp mod 64)) EmptyString))).

Fixpoint json_text (s : string) : string :=
  match s with
  | EmptyString => EmptyString
  | String c0 tail =>
      match tail with
      | String c1 (String c2 (String c3 (String c4 (String c5 rest)))) =>
          match surrogate_pair c0 c1 c2 c3 c4 c5 with
          | Some cp => utf8_of_astral cp +:+ json_text rest
          | None => String c0 (json_text tail)
          end
      | _ => String c0 (json_text tail)
      end
  end.

(** [d[k] = q] on the items of a dict: the value is replaced where the key
    is, and a new key goes to the end. *)
Fixpoint dict_set (d : list (string * Z)) (k : string) (q : Z) : list (string * Z) :=
  match d with
  | [] => [(k, q)]
  | (k', q') :: rest =>
      if decide (k' = k) then (k', q) :: rest else (k', q') :: dict_set rest k q
  end.

(** The members that [json.dump(stock, file, indent=2, sort_keys=True)]
    writes, as [json.load] collects them into a dict: the items in the order
    of their keys, each key as it is read back, a key read twice keeping its
    place and taking the later value. *)
Definition json_members (stock : gmap string Z) : list (string * Z) :=
  foldl (λ d kq, dict_set d (json_text kq.1) kq.2) []
        (merge_sort key_le (map_to_list stock)).

(** An item of that dict as Python values: a [str] key and an [int]. *)
Definition encode (kq : string * Z) : pyval * pyval := (VStr kq.1, VInt kq.2).

Definition json_object (stock : gmap string Z) : pyval :=
  VDict (encode <$> json_members stock).

(** [open(file_path, "w", encoding="utf-8")] followed by
    [json.dump(stock, file, ...)].  The empty path cannot be created:
    [open] raises [FileNotFoundError] on it. *)
Definition json_dump (stock : gmap string Z) (file_path : string) : M unit :=
  λ w, let written (n : node) :=
         (Ret tt, World (stock_data w) (<[file_path := n]> (disk w)) (console w)) in
       match open_error file_path with
       | Some e => (Raise e, w)
       | None =>
           if bool_decide (file_path = "") then (Raise FileNotFoundError, w)
           else
             match disk w !! file_path with
             | None => written (File true true (Document (json_object stock)))
             | Some Blocked => (Raise OSError, w)
             | Some (File readable writable _) =>
                 if writable
                 then written (File readable writable (Document (json_object stock)))
                 else (Raise OSError, w)
             end
       end.

(** ** The functions of the module *)

(** The text [f"{qty}"] of a quantity that passed the [int] check. *)
Definition format_qty (qty : pyval) : string :=
  match qty with
  | VBool true => "True"
  | VBool false => "False"
  | VInt n => pretty n
  | _ => ""
  end.

(** [add_item(item, qty, logs)].  [logs] is the caller's list, [None] when
    none was passed; the list after the call is the result.  [now] is what
    [datetime.now().isoformat()] gives at the call. *)
Definition add_item (item qty : pyval) (logs : option (list string))
    (now : string) : M (option (list string)) :=
  match item with
  | VStr (String _ _ as name) =>
      match int_value qty with
      | None => raise TypeError
      | Some q =>
          if q <? 0 then raise ValueError
          else
            stock <- get_stock ;;
            set_stock (<[name := default 0 (stock !! name) + q]> stock) ;;
            let logs' :=
              (λ l, l ++ [now +:+ ": Added " +:+ format_qty qty +:+ " of " +:+ name])
                <$> logs in
            logging INFO (Added q name) ;;
            ret logs'
      end
  | _ => raise TypeError
  end.

(** [remove_item(item, qty)]. *)
Definition remove_item (item qty : pyval) : M bool :=
  match item with
  | VStr (String _ _ as name) =>
      match int_value qty with
      | None => raise TypeError
      | Some q =>
          if q <? 0 then raise ValueError
          else
            stock <- get_stock ;;
            match stock !! name with
            | None => logging WARNING (ItemNotFound name) ;; ret false
            | Some current =>
                (if current <=? q
                 then set_stock (delete name stock)
                 else set_stock (<[name := current - q]> stock)) ;;
                logging INFO (Removed q name) ;;
                ret true
            end
      end
  | _ => raise TypeError
  end.

(** [get_qty(item)]. *)
Definition get_qty (item : pyval) : M Z :=
  match item with
  | VStr (String _ _ as name) =>
      stock <- get_stock ;; ret (default 0 (stock !! name))
  | _ => raise TypeError
  end.

(** The body of the loop of [load_data]: one item of the loaded object,
    with the dictionary [sanitized] built so far. *)
Definition sanitize_entry (sanitized : gmap string Z) (entry : pyval * pyval)
    : M (gmap string Z) :=
  let '(key, val) := entry in
  match key with
  | VStr k =>
      match py_int val with
      | Raise e =>
          if exn_isa e TypeError || exn_isa e ValueError
          then logging WARNING (SkippedInvalid k val) ;; ret sanitized
          else raise e
      | Ret quantity =>
          if quantity <? 0
          then logging WARNING (SkippedNegative k quantity) ;; ret sanitized
          else ret (<[k := quantity]> sanitized)
      end
  | _ => logging WARNING (SkippedKey key) ;; ret sanitized
  end.

(** [load_data(file_path)].  The [return] inside the handlers is the [None]
    they hand on. *)
Definition load_data (file_path : string) : M unit :=
  loaded <- try_except (data <- json_load file_path ;; ret (Some data))
              (λ e,
                 if exn_isa e FileNotFoundError
                 then Some (logging INFO (FileMissing file_path) ;; ret None)
                 else if exn_isa e JSONDecodeError
                 then Some (logging ERROR ParseFailed ;; ret None)
                 else if exn_isa e OSError
                 then Some (logging ERROR (ReadFailed file_path) ;; ret None)
                 else None) ;;
  match loaded with
  | None => ret tt
  | Some (VDict items) =>
      sanitized <- for_each items sanitize_entry ∅ ;;
      set_stock ∅ ;;
      stock <- get_stock ;;
      set_stock (sanitized ∪ stock) ;;
      logging INFO (Loaded file_path)
  | Some _ => logging ERROR InvalidFormat
  end.

(** [save_data(file_path)]. *)
Definition save_data (file_path : string) : M unit :=
  try_except
    (stock <- get_stock ;;
     json_dump stock file_path ;;
     logging INFO (Saved file_path))
    (λ e,
       if exn_isa e OSError
       then Some (logging ERROR (SaveFailed file_path))
       else None).

(** [check_low_items(threshold)].  The dictionary is a finite map here, so
    the order in which the program inserted the items is not kept: the list
    comes in the order in which [map_to_list] enumerates the map, and what
    is proved of it is about its members only. *)
Definition check_low_items (threshold : pyval) : M (list string) :=
  match int_value threshold with
  | None => raise TypeError
  | Some t =>
      if t <? 0 then raise ValueError
      else
        stock <- get_stock ;;
        ret ((filter (λ kq : string * Z, kq.2 < t) (map_to_list stock)).*1)
  end.

(** The loop [for entry in adds: add_item(entry[0], entry[1], logs)], as in
    [demo_operations]. *)
Definition add_items (adds : list (string * Z)) (now : string)
    (logs : option (list string)) : M (option (list string)) :=
  for_each adds (λ logs a, add_item (VStr a.1) (VInt a.2) logs now) logs.

(** The line that a call [add_item(a.1, a.2, logs)] made at the time [now]
    appends to [logs]. *)
Definition log_line (now : string) (a : string * Z) : string :=
  now +:+ ": Added " +:+ pretty a.2 +:+ " of " +:+ a.1.

(** ** Printing and the demonstration run *)







(** ** Vocabulary of the specification *)

(** The specification's [InvalidArgument] is what the module raises as
    [TypeError] or [ValueError]. *)
Definition InvalidArgument (e : exn) : Prop := e = TypeError ∨ e = ValueError.

(** An item that is empty or not a string. *)
Definition invalid_item (item : pyval) : Prop :=
  match item with
  | VStr s => s = ""
  | _ => True
  end.

(** A quantity or threshold that is negative or not an integer. *)
Definition invalid_quantity (qty : pyval) : Prop :=
  match int_value qty with
  | Some q => q < 0
  | None => True
  end.

(** The sum of the quantities that the calls in [adds] add to [item]. *)
Definition added_to (item : string) (adds : list (string * Z)) : Z :=
  foldr (λ a acc, if decide (a.1 = item) then a.2 + acc else acc) 0 adds.

(** No stored quantity is negative; no stored quantity is zero or negative. *)
Definition stock_nonneg (stock : gmap string Z) : Prop :=
  ∀ k q, stock !! k = Some q → 0 ≤ q.

Definition stock_positive (stock : gmap string Z) : Prop :=
  ∀ k q, stock !! k = Some q → 0 < q.

(** ** The loop of [load_data], read as a function *)

(** What the loop body does with one item, as a value: the item is kept
    under a key with a quantity, skipped with a warning, or an exception
    that the [except] clause does not name leaves the loop. *)
Inductive verdict :=
  | Kept (k : string) (q : Z)
  | Skipped (m : message)
  | Failed (e : exn).

(** [judge] follows [sanitize_entry] branch by branch. *)
Definition judge (entry : pyval * pyval) : verdict :=
  match entry.1 with
  | VStr k =>
      match py_int entry.2 with
      | Raise e =>
          if exn_isa e TypeError || exn_isa e ValueError
          then Skipped (SkippedInvalid k entry.2)
          else Failed e
      | Ret q => if q <? 0 then Skipped (SkippedNegative k q) else Kept k q
      end
  | key => Skipped (SkippedKey key)
  end.

(** The items the loop stores, in order, and the warnings it logs. *)
Definition kept (items : list (pyval * pyval)) : list (string * Z) :=
  omap (λ entry, match judge entry with Kept k q => Some (k, q) | _ => None end) items.

Definition warnings (items : list (pyval * pyval)) : list (level * message) :=
  omap (λ entry, match judge entry with Skipped m => Some (WARNING, m) | _ => None end)
       items.

(** [sanitized[key] = quantity]. *)
Definition store (m : gmap string Z) (kq : string * Z) : gmap string Z :=
  <[kq.1 := kq.2]> m.

(** ** Cases of the specification *)

(** The reasons for which [load_data] stops before it has a sanitized
    result, each with the record it logs: no file at the path, a path or a
    file that cannot be opened for reading, text that is not JSON, a JSON
    value that is not an object. *)
Inductive fails_early (file_path : string) : option node → level * message → Prop :=
  | fails_missing :
      fails_early file_path None (INFO, FileMissing file_path)
  | fails_blocked :
      fails_early file_path (Some Blocked) (ERROR, ReadFailed file_path)
  | fails_unreadable writable c :
      fails_early file_path (Some (File false writable c)) (ERROR, ReadFailed file_path)
  | fails_garbled writable :
      fails_early file_path (Some (File true writable Garbled)) (ERROR, ParseFailed)
  | fails_not_object writable data :
      (∀ items, data ≠ VDict items) →
      fails_early file_path (Some (File true writable (Document data)))
        (ERROR, InvalidFormat).

(** The object of the specification's example: a negative value, a value
    that is not a number, a key that is not a string. *)
Definition example_items : list (pyval * pyval) :=
  [(VStr "x", VInt (-1)); (VStr "y", VStr "bad"); (VInt 5, VInt 1)].

(** The double 2.5, which is [5629499534213120 * 2^-51]. *)
Definition two_and_a_half : spec_float := S754_finite false 5629499534213120 (-51).

(** An item of the kind the specification calls valid: a non-empty string
    key with a non-negative integer value. *)
Definition valid_entry (entry : pyval * pyval) : Prop :=
  ∃ k q, entry = (VStr k, VInt q) ∧ k ≠ "" ∧ 0 ≤ q.

(** [open(file_path, "w")] succeeds: [open] accepts the path, which is not
    empty, and the path is free or holds a file that may be written. *)
Definition can_write (d : gmap string node) (file_path : string) : Prop :=
  open_error file_path = None ∧ file_path ≠ "" ∧
  match d !! file_path with
  | None => True
  | Some (File _ writable _) => writable = true
  | Some Blocked => False
  end.

Global Instance can_write_dec d file_path : Decision (can_write d file_path).
Proof.
  unfold can_write. destruct (d !! file_path) as [[readable writable c|]|]; apply _.
Defined.

(** The file just written can then be read: the path was free, or held a
    file that may be read. *)
Definition can_read_back (d : gmap string node) (file_path : string) : Prop :=
  match d !! file_path with
  | None => True
  | Some (File readable _ _) => readable = true
  | Some Blocked => False
  end.

(** The keys of a dictionary come back from a JSON file as they are: none
    holds a high surrogate directly followed by a low one. *)
Definition json_stable (stock : gmap string Z) : Prop :=
  ∀ k, is_Some (stock !! k) → json_text k = k.

(** Two lone surrogates, D83D then DE00, and the character 1F600 that the
    two escapes are read back as. *)
Definition lone_surrogates : string :=
  String "237" (String "160" (String "189"
    (String "237" (String "184" (String "128" EmptyString))))).

Definition astral_character : string :=
  String "240" (String "159" (String "152" (String "128" EmptyString))).

(** * Properties *)

(** ** Validation *)

Ltac run := unfold bind, get_stock, set_stock, logging, ret, raise; simpl.

Lemma isinstance_int_value v : isinstance_int v = true ↔ is_Some (int_value v).
Proof.
  destruct v; simpl; split; try done; try by eauto.
  all: by intros [? [=]].
Qed.

Lemma add_item_ok name q logs now w :
  name ≠ "" → 0 ≤ q →
  add_item (VStr name) (VInt q) logs now w =
    (Ret ((λ l, l ++ [now +:+ ": Added " +:+ pretty q +:+ " of " +:+ name]) <$> logs),
     World (<[name := default 0 (stock_data w !! name) + q]> (stock_data w))
           (disk w) (console w ++ [(INFO, Added q name)])).
Proof.
  intros Hname Hq. destruct name as [|c name]; [done|].
  assert ((q <? 0) = false) as Hlt by lia.
  unfold add_item. cbn [int_value]. rewrite Hlt. reflexivity.
Qed.

Lemma get_qty_ok name w :
  name ≠ "" → get_qty (VStr name) w = (Ret (default 0 (stock_data w !! name)), w).
Proof. intros Hname. destruct name; [done|]. reflexivity. Qed.

Lemma add_item_raises item qty logs now w e w' :
  add_item item qty logs now w = (Raise e, w') →
  InvalidArgument e ∧ w' = w ∧ (invalid_item item ∨ invalid_quantity qty).
Proof.
  unfold add_item, InvalidArgument, invalid_quantity.
  destruct item as [| | | |[|c name]| |]; simpl;
    try (intros [= <- <-]; by auto).
  destruct (int_value qty) as [q|]; [|intros [= <- <-]; by auto].
  destruct (Z.ltb_spec q 0); [intros [= <- <-]; by auto|].
  run. discriminate.
Qed.

Lemma remove_item_raises item qty w e w' :
  remove_item item qty w = (Raise e, w') →
  InvalidArgument e ∧ w' = w ∧ (invalid_item item ∨ invalid_quantity qty).
Proof.
  unfold remove_item, InvalidArgument, invalid_quantity.
  destruct item as [| | | |[|c name]| |]; simpl;
    try (intros [= <- <-]; by auto).
  destruct (int_value qty) as [q|]; [|intros [= <- <-]; by auto].
  destruct (Z.ltb_spec q 0); [intros [= <- <-]; by auto|].
  run. destruct (stock_data w !! String c name) as [current|]; [|discriminate].
  destruct (current <=? q); discriminate.
Qed.

Lemma check_low_items_raises threshold w e w' :
  check_low_items threshold w = (Raise e, w') →
  InvalidArgument e ∧ w' = w ∧ invalid_quantity threshold.
Proof.
  unfold check_low_items, InvalidArgument, invalid_quantity.
  destruct (int_value threshold) as [t|]; [|intros [= <- <-]; by auto].
  destruct (Z.ltb_spec t 0); [intros [= <- <-]; by auto|].
  run. discriminate.
Qed.

Lemma add_item_invalid item qty logs now w :
  invalid_item item ∨ invalid_quantity qty →
  ∃ e, add_item item qty logs now w = (Raise e, w) ∧ InvalidArgument e.
Proof.
  unfold add_item, InvalidArgument, invalid_item, invalid_quantity.
  destruct item as [| | | |[|c name]| |]; try by eauto.
  intros [[=]|Hq].
  destruct (int_value qty) as [q|]; [|by eauto].
  destruct (Z.ltb_spec q 0); [by eauto|lia].
Qed.

(** ** Adding and removing *)

Lemma add_items_total adds now : ∀ logs w,
  Forall (λ a : string * Z, a.1 ≠ "" ∧ 0 ≤ a.2) adds →
  ∃ logs' w', add_items adds now logs w = (Ret logs', w') ∧
    ∀ item, default 0 (stock_data w' !! item)
            = default 0 (stock_data w !! item) + added_to item adds.
Proof.
  induction adds as [|[name q] adds IH]; intros logs w Hvalid.
  - exists logs, w. split; [done|]. intros item. simpl. lia.
  - apply Forall_cons in Hvalid as [[Hname Hq] Hvalid]. simpl in Hname, Hq.
    unfold add_items. cbn [for_each fst snd]. unfold bind at 1.
    rewrite add_item_ok by done.
    destruct (IH ((λ l, l ++ [now +:+ ": Added " +:+ pretty q +:+ " of " +:+ name]) <$> logs)
                (World (<[name := default 0 (stock_data w !! name) + q]> (stock_data w))
                   (disk w) (console w ++ [(INFO, Added q name)])) Hvalid)
      as (logs' & w' & Hrun & Hsum).
    exists logs', w'. split; [exact Hrun|].
    intros item. rewrite Hsum. simpl.
    destruct (decide (name = item)) as [->|Hne].
    + rewrite lookup_insert_eq. simpl. lia.
    + rewrite lookup_insert_ne by done. lia.
Qed.

(** C1: for a non-empty item name and a quantity [q >= 0], [add_item]
    returns normally, stores the previous quantity of the item (0 when the
    item is absent, so that the entry is created at [q]) plus [q], and leaves
    the other entries alone; after any sequence of such calls [get_qty]
    returns the quantity held before plus the sum of the quantities added
    for the item, which is that sum when the sequence starts from the empty
    dictionary. *)
Theorem add_item_accumulates (item : string) (q : Z) (logs : option (list string))
    (now : string) (w : world) :
  item ≠ "" → 0 ≤ q →
  (∃ logs' w',
      add_item (VStr item) (VInt q) logs now w = (Ret logs', w') ∧
      stock_data w' = <[item := default 0 (stock_data w !! item) + q]> (stock_data w) ∧
      (stock_data w !! item = None → stock_data w' !! item = Some q) ∧
      get_qty (VStr item) w' = (Ret (default 0 (stock_data w !! item) + q), w')) ∧
  (∀ adds, Forall (λ a : string * Z, a.1 ≠ "" ∧ 0 ≤ a.2) adds →
     ∃ logs' w',
       add_items adds now logs w = (Ret logs', w') ∧
       get_qty (VStr item) w'
         = (Ret (default 0 (stock_data w !! item) + added_to item adds), w') ∧
       (stock_data w = ∅ → get_qty (VStr item) w' = (Ret (added_to item adds), w'))).
Proof.
  intros Hitem Hq. split.
  - rewrite add_item_ok by done. eexists _, _. split; [reflexivity|].
    cbn [stock_data]. split; [done|]. split.
    + intros Habsent. by rewrite lookup_insert_eq, Habsent.
    + rewrite get_qty_ok by done. cbn [stock_data]. by rewrite lookup_insert_eq.
  - intros adds Hvalid.
    destruct (add_items_total adds now logs w Hvalid) as (logs' & w' & Hrun & Hsum).
    exists logs', w'. split; [done|].
    rewrite get_qty_ok by done. rewrite Hsum. split; [done|].
    intros ->. rewrite lookup_empty. simpl. do 2 f_equal.
Qed.

Lemma add_item_accumulates_witness :
  ∃ logs' w',
    add_items [("apple", 10); ("banana", 2); ("apple", 5)] "t" None (World ∅ ∅ [])
      = (Ret logs', w') ∧
    get_qty (VStr "apple") w' = (Ret 15, w').
Proof.
  destruct (add_item_accumulates "apple" 1 None "t" (World ∅ ∅ []))
    as [_ Hseq]; [done|lia|].
  destruct (Hseq [("apple", 10); ("banana", 2); ("apple", 5)])
    as (logs' & w' & Hrun & _ & Hget).
  { repeat constructor; simpl; done || lia. }
  exists logs', w'. split; [exact Hrun|]. by apply Hget.
Defined.

(** C2: for a non-empty item name and a quantity [q >= 0], [remove_item]
    on an absent item returns [False] and leaves the dictionary unchanged
    (a warning is logged); on a present item it returns [True], and stores
    the quantity minus [q] when [q] is less than the stored quantity, or
    deletes the entry when the difference would be zero or less, after
    which [get_qty] returns 0. *)
Theorem remove_item_spec (item : string) (q : Z) (w : world) :
  item ≠ "" → 0 ≤ q →
  (stock_data w !! item = None →
     remove_item (VStr item) (VInt q) w
       = (Ret false, World (stock_data w) (disk w)
                       (console w ++ [(WARNING, ItemNotFound item)]))) ∧
  (∀ current, stock_data w !! item = Some current →
     ∃ w', remove_item (VStr item) (VInt q) w = (Ret true, w') ∧
       (q < current → stock_data w' = <[item := current - q]> (stock_data w)) ∧
       (current - q ≤ 0 →
          stock_data w' = delete item (stock_data w) ∧
          get_qty (VStr item) w' = (Ret 0, w'))).
Proof.
  intros Hitem Hq. assert ((q <? 0) = false) as Hlt by lia.
  destruct item as [|c name]; [done|].
  unfold remove_item. cbn [int_value]. rewrite Hlt. split.
  - intros Habsent. run. by rewrite Habsent.
  - intros current Hcur. run. rewrite Hcur.
    destruct (Z.leb_spec current q); eexists; (split; [reflexivity|]); simpl.
    + split; [lia|]. intros _. split; [done|].
      unfold get_qty. run. by rewrite lookup_delete_eq.
    + split; [done|lia].
Qed.

Lemma remove_item_spec_witness :
  ∃ w', remove_item (VStr "apple") (VInt 3) (World {["apple" := 10]} ∅ [])
          = (Ret true, w') ∧
        stock_data w' = <["apple" := 7]> {["apple" := 10]}.
Proof.
  destruct (remove_item_spec "apple" 3 (World {["apple" := 10]} ∅ []))
    as [_ Hpresent]; [done|lia|].
  destruct (Hpresent 10) as (w' & Hrun & Hless & _); [done|].
  exists w'. split; [exact Hrun|]. apply Hless. lia.
Defined.

(** C8: [add_item] with an item that is empty or not a string, or with a
    quantity that is negative or not an integer, raises [TypeError] or
    [ValueError] (the specification's [InvalidArgument]) to the caller;
    [add_item("", 1)] raises [TypeError] and [add_item("apple", -1)] raises
    [ValueError]. *)
Theorem add_item_rejects (item qty : pyval) (logs : option (list string))
    (now : string) (w : world) :
  invalid_item item ∨ invalid_quantity qty →
  (∃ e, add_item item qty logs now w = (Raise e, w) ∧ InvalidArgument e) ∧
  add_item (VStr "") (VInt 1) logs now w = (Raise TypeError, w) ∧
  add_item (VStr "apple") (VInt (-1)) logs now w = (Raise ValueError, w).
Proof.
  intros Hinvalid. split; [by apply add_item_invalid|]. by split.
Qed.

Lemma add_item_rejects_witness :
  ∃ e, add_item (VFloat S754_nan) (VInt 1) None "t" (World ∅ ∅ [])
         = (Raise e, World ∅ ∅ []) ∧ InvalidArgument e.
Proof.
  apply (add_item_rejects (VFloat S754_nan) (VInt 1) None "t" (World ∅ ∅ [])).
  left. exact I.
Defined.

(** C10: when [add_item], [remove_item] or [check_low_items] raises, the
    exception is a validation error ([TypeError] or [ValueError]) and the
    state, the dictionary included, is exactly the one before the call:
    every check comes before the first mutation. *)
Theorem validation_before_mutation (item qty threshold : pyval)
    (logs : option (list string)) (now : string) (w w' : world) (e : exn) :
  add_item item qty logs now w = (Raise e, w') ∨
  remove_item item qty w = (Raise e, w') ∨
  check_low_items threshold w = (Raise e, w') →
  InvalidArgument e ∧ w' = w ∧ stock_data w' = stock_data w.
Proof.
  intros [Hrun|[Hrun|Hrun]].
  - apply add_item_raises in Hrun as (? & -> & _). done.
  - apply remove_item_raises in Hrun as (? & -> & _). done.
  - apply check_low_items_raises in Hrun as (? & -> & _). done.
Qed.

Lemma validation_before_mutation_witness :
  InvalidArgument ValueError ∧
  World {["apple" := 10]} ∅ [] = World {["apple" := 10]} ∅ [] ∧
  stock_data (World {["apple" := 10]} ∅ []) = stock_data (World {["apple" := 10]} ∅ []).
Proof.
  apply (validation_before_mutation (VStr "apple") (VInt (-3)) (VInt 5) None "t"
           (World {["apple" := 10]} ∅ []) (World {["apple" := 10]} ∅ []) ValueError).
  right. left. reflexivity.
Defined.

(** ** Low stock *)

Lemma low_items_elem (stock : gmap string Z) (t : Z) (item : string) :
  item ∈ (filter (λ kq : string * Z, kq.2 < t) (map_to_list stock)).*1
  ↔ ∃ q, stock !! item = Some q ∧ q < t.
Proof.
  rewrite list_elem_of_fmap. split.
  - intros ([k q] & -> & Hin). apply list_elem_of_filter in Hin as [Hlt Hin].
    apply elem_of_map_to_list in Hin. by exists q.
  - intros (q & Hq & Hlt). exists (item, q). split; [done|].
    apply list_elem_of_filter. split; [done|]. by apply elem_of_map_to_list.
Qed.

Lemma low_items_NoDup (stock : gmap string Z) (t : Z) :
  NoDup (filter (λ kq : string * Z, kq.2 < t) (map_to_list stock)).*1.
Proof.
  eapply sublist_NoDup; [apply (NoDup_fst_map_to_list stock)|].
  apply fmap_sublist, sublist_filter.
Qed.

(** C9: for an integer threshold [t >= 0], [check_low_items] returns the
    names of the items whose stored quantity is strictly below [t], each
    once, and changes nothing; on the stock apple 10, banana 2, grape 12 and
    threshold 5 the result is the list holding banana alone; a threshold that
    is negative or not an integer raises [TypeError] or [ValueError]. *)
Theorem check_low_items_spec (threshold : pyval) (t : Z) (w : world) :
  int_value threshold = Some t → 0 ≤ t →
  (∃ low, check_low_items threshold w = (Ret low, w) ∧ NoDup low ∧
     ∀ item, item ∈ low ↔ ∃ q, stock_data w !! item = Some q ∧ q < t) ∧
  (∀ d c, check_low_items (VInt 5)
            (World {["apple" := 10; "banana" := 2; "grape" := 12]} d c)
          = (Ret ["banana"],
             World {["apple" := 10; "banana" := 2; "grape" := 12]} d c)) ∧
  (∀ bad, invalid_quantity bad →
     ∃ e, check_low_items bad w = (Raise e, w) ∧ InvalidArgument e).
Proof.
  intros Hint Ht. split; [|split].
  - unfold check_low_items. rewrite Hint.
    assert ((t <? 0) = false) as -> by lia.
    eexists. split; [reflexivity|]. split.
    + apply low_items_NoDup.
    + intros item. apply low_items_elem.
  - intros d c. reflexivity.
  - intros bad. unfold check_low_items, invalid_quantity, InvalidArgument.
    destruct (int_value bad) as [q|]; [|by eauto].
    intros Hneg. assert ((q <? 0) = true) as -> by lia. by eauto.
Qed.

Lemma check_low_items_spec_witness :
  ∃ low, check_low_items (VInt 5)
           (World {["apple" := 10; "banana" := 2; "grape" := 12]} ∅ [])
         = (Ret low, World {["apple" := 10; "banana" := 2; "grape" := 12]} ∅ []) ∧
    NoDup low ∧
    ∀ item, item ∈ low ↔
      ∃ q, ({["apple" := 10; "banana" := 2; "grape" := 12]} : gmap string Z) !! item
           = Some q ∧ q < 5.
Proof.
  destruct (check_low_items_spec (VInt 5) 5
              (World {["apple" := 10; "banana" := 2; "grape" := 12]} ∅ []))
    as [Hlow _]; [reflexivity|lia|exact Hlow].
Defined.

(** ** Loading: the sanitizing loop *)

Lemma sanitize_entry_judge sanitized entry w :
  sanitize_entry sanitized entry w =
    match judge entry with
    | Kept k q => (Ret (<[k := q]> sanitized), w)
    | Skipped m =>
        (Ret sanitized, World (stock_data w) (disk w) (console w ++ [(WARNING, m)]))
    | Failed e => (Raise e, w)
    end.
Proof.
  destruct entry as [key val]. unfold sanitize_entry, judge. cbn [fst snd].
  destruct key; try reflexivity.
  destruct (py_int val) as [q|e].
  - destruct (q <? 0); reflexivity.
  - destruct (exn_isa e TypeError || exn_isa e ValueError); reflexivity.
Qed.

Lemma int_of_text_raises s e : int_of_text s = Raise e → e = ValueError.
Proof.
  unfold int_of_text. destruct (ascii_form s ≫= int_of_ascii_text); congruence.
Qed.

(** Only an infinite float makes the loop raise. *)
Lemma judge_failed entry e :
  judge entry = Failed e →
  e = OverflowError ∧ ∃ k s, entry = (VStr k, VFloat (S754_infinity s)).
Proof.
  destruct entry as [key val]. unfold judge. cbn [fst snd].
  destruct key as [| | | |k| |]; try discriminate.
  destruct (py_int val) as [q|e'] eqn:Hint.
  { destruct (q <? 0); discriminate. }
  destruct val as [|b|n|f|s|l|d]; simpl in Hint; try discriminate;
    try (injection Hint as <-; simpl; discriminate).
  - destruct f; simpl in Hint; try discriminate.
    + injection Hint as <-. simpl. intros [= <-]. eauto.
    + injection Hint as <-. simpl. discriminate.
  - apply int_of_text_raises in Hint as ->. simpl. discriminate.
Qed.

Lemma kept_cons entry items :
  kept (entry :: items) =
    match judge entry with Kept k q => (k, q) :: kept items | _ => kept items end.
Proof. unfold kept. simpl. by destruct (judge entry). Qed.

Lemma warnings_cons entry items :
  warnings (entry :: items) =
    match judge entry with
    | Skipped m => (WARNING, m) :: warnings items
    | _ => warnings items
    end.
Proof. unfold warnings. simpl. by destruct (judge entry). Qed.

(** The loop never touches the dictionary or the files; when it ends
    normally it has stored the kept items in order and logged one warning
    for each skipped item. *)
Lemma sanitize_loop items : ∀ sanitized w o w',
  for_each items sanitize_entry sanitized w = (o, w') →
  stock_data w' = stock_data w ∧ disk w' = disk w ∧
  ∀ result, o = Ret result →
    result = foldl store sanitized (kept items) ∧
    console w' = console w ++ warnings items.
Proof.
  induction items as [|entry items IH]; intros sanitized w o w'.
  - simpl. unfold ret. intros [= <- <-]. split; [done|]. split; [done|].
    intros result [= <-]. by rewrite app_nil_r.
  - cbn [for_each]. unfold bind at 1. rewrite sanitize_entry_judge.
    rewrite kept_cons, warnings_cons.
    destruct (judge entry) as [k q|m|e].
    + intros Hrun. apply IH in Hrun as (? & ? & Hret). done.
    + intros Hrun. apply IH in Hrun as (? & ? & Hret). simpl in *.
      split; [done|]. split; [done|]. intros result Ho.
      destruct (Hret result Ho) as [-> ->]. by rewrite <-app_assoc.
    + intros [= <- <-]. by repeat split.
Qed.

Lemma sanitize_loop_total items : ∀ sanitized w,
  Forall (λ entry, ∀ e, judge entry ≠ Failed e) items →
  ∃ result w', for_each items sanitize_entry sanitized w = (Ret result, w').
Proof.
  induction items as [|entry items IH]; intros sanitized w Hok.
  - by eexists _, _.
  - apply Forall_cons in Hok as [Hentry Hok].
    cbn [for_each]. unfold bind at 1. rewrite sanitize_entry_judge.
    destruct (judge entry) as [k q|m|e]; [by apply IH|by apply IH|].
    by destruct (Hentry e).
Qed.

Lemma foldl_store (l : list (string * Z)) : ∀ m : gmap string Z,
  NoDup l.*1 → foldl store m l = list_to_map l ∪ m.
Proof.
  induction l as [|[k q] l IH]; intros m Hnodup.
  - simpl. by rewrite (left_id_L ∅ (∪)).
  - apply NoDup_cons in Hnodup as [Hfresh Hnodup]. simpl.
    rewrite IH by done. unfold store. simpl.
    rewrite <-insert_union_l. apply symmetry, insert_union_r.
    by apply not_elem_of_list_to_map_1.
Qed.

Lemma kept_elem items k q :
  (k, q) ∈ kept items ↔
  ∃ val, (VStr k, val) ∈ items ∧ py_int val = Ret q ∧ 0 ≤ q.
Proof.
  unfold kept. rewrite list_elem_of_omap. split.
  - intros ([key val] & Hin & Hjudge). exists val.
    unfold judge in Hjudge. cbn [fst snd] in Hjudge.
    destruct key; try discriminate.
    destruct (py_int val) as [q'|e].
    + destruct (Z.ltb_spec q' 0); [discriminate|].
      injection Hjudge as <- <-. done.
    + destruct (exn_isa e TypeError || exn_isa e ValueError); discriminate.
  - intros (val & Hin & Hint & Hq). exists (VStr k, val). split; [done|].
    unfold judge. cbn [fst snd]. rewrite Hint.
    by assert ((q <? 0) = false) as -> by lia.
Qed.

Lemma kept_keys items k : k ∈ (kept items).*1 → VStr k ∈ items.*1.
Proof.
  intros ([k' q] & -> & Hin)%list_elem_of_fmap.
  apply kept_elem in Hin as (val & Hin & _).
  apply list_elem_of_fmap. by exists (VStr k', val).
Qed.

Lemma kept_NoDup items : NoDup items.*1 → NoDup (kept items).*1.
Proof.
  induction items as [|[key val] items IH]; [by constructor|].
  intros [Hfresh Hnodup]%NoDup_cons. rewrite kept_cons.
  destruct (judge (key, val)) as [k q|m|e] eqn:Hjudge; [|by apply IH..].
  assert (key = VStr k) as ->.
  { unfold judge in Hjudge. cbn [fst snd] in Hjudge.
    destruct key; try discriminate.
    destruct (py_int val) as [q'|e].
    - destruct (q' <? 0); congruence.
    - destruct (exn_isa e TypeError || exn_isa e ValueError); discriminate. }
  simpl. apply NoDup_cons. split; [|by apply IH].
  intros Hin. by apply Hfresh, kept_keys.
Qed.

Lemma NoDup_fst_agree {A B} (l : list (A * B)) a b1 b2 :
  NoDup l.*1 → (a, b1) ∈ l → (a, b2) ∈ l → b1 = b2.
Proof.
  induction l as [|[a' b'] l IH]; [by intros _ ?%elem_of_nil|].
  intros [Hfresh Hnodup]%NoDup_cons [[= -> ->]|H1]%elem_of_cons [[= ->]|H2]%elem_of_cons.
  - done.
  - destruct Hfresh. apply list_elem_of_fmap. by exists (a', b2).
  - simplify_eq. destruct Hfresh. apply list_elem_of_fmap. by exists (a', b1).
  - by apply IH.
Qed.

(** ** Loading: the function *)

Lemma open_error_class file_path e :
  open_error file_path = Some e → e = UnicodeEncodeError ∨ e = ValueError.
Proof.
  unfold open_error. destruct (unencodable file_path); [intros [= <-]; by left|].
  destruct (has_nul file_path); [intros [= <-]; by right|done].
Qed.

(** A path that [open] refuses: the exception is a [ValueError], which no
    clause of [load_data] catches. *)
Lemma load_data_refused file_path w e :
  open_error file_path = Some e → load_data file_path w = (Raise e, w).
Proof.
  intros Hnul. unfold load_data, try_except, json_load.
  unfold bind at 1. unfold bind at 1. rewrite Hnul.
  by destruct (open_error_class _ _ Hnul) as [-> | ->].
Qed.

Lemma load_data_completed file_path w w' :
  load_data file_path w = (Ret tt, w') → open_error file_path = None.
Proof.
  destruct (open_error file_path) as [e|] eqn:Hnul; [|done].
  by rewrite (load_data_refused _ _ _ Hnul).
Qed.

(** Bytes that are not UTF-8, or JSON nested too deep: reading raises
    [UnicodeDecodeError] or [RecursionError], which no clause of
    [load_data] catches either. *)
Lemma load_data_undecodable file_path w writable c e :
  open_error file_path = None →
  disk w !! file_path = Some (File true writable c) →
  decode_error c = Some e →
  load_data file_path w = (Raise e, w).
Proof.
  intros Hnul Hfile Herror. unfold load_data, try_except, json_load.
  unfold bind at 1. unfold bind at 1. rewrite Hnul, Hfile.
  by destruct c; simplify_eq/=.
Qed.

(** A file that is read and holds an object: the load is the loop followed
    by the replacement of the dictionary. *)
Lemma load_data_object file_path w writable items :
  open_error file_path = None →
  disk w !! file_path = Some (File true writable (Document (VDict items))) →
  load_data file_path w =
    match for_each items sanitize_entry ∅ w with
    | (Ret sanitized, w1) =>
        (Ret tt, World (sanitized ∪ ∅) (disk w1)
                   (console w1 ++ [(INFO, Loaded file_path)]))
    | (Raise e, w1) => (Raise e, w1)
    end.
Proof.
  intros Hnul Hfile. unfold load_data, try_except, json_load.
  unfold bind at 1. unfold bind at 1. rewrite Hnul, Hfile. unfold ret at 1.
  cbv beta iota. unfold bind at 1.
  destruct (for_each items sanitize_entry ∅ w) as [[sanitized|e] w1]; reflexivity.
Qed.

Lemma load_data_fails_early file_path w record :
  open_error file_path = None →
  fails_early file_path (disk w !! file_path) record →
  load_data file_path w =
    (Ret tt, World (stock_data w) (disk w) (console w ++ [record])).
Proof.
  intros Hnul Hfail. unfold load_data, try_except, json_load.
  unfold bind at 1. unfold bind at 1. rewrite Hnul.
  inversion Hfail as [Hn|Hn|wr c Hn|wr Hn|wr data Hdata Hn]; try reflexivity.
  destruct data; try reflexivity. by destruct (Hdata items).
Qed.

(** Every load is refused by [open], meets bytes it cannot decode, stops
    early with a record, or finds an object to sanitize. *)
Lemma load_data_cases file_path w :
  (∃ e, open_error file_path = Some e ∧ load_data file_path w = (Raise e, w)) ∨
  (open_error file_path = None ∧
   ∃ writable c e,
     disk w !! file_path = Some (File true writable c) ∧
     decode_error c = Some e ∧
     load_data file_path w = (Raise e, w)) ∨
  (open_error file_path = None ∧
   ∃ record, fails_early file_path (disk w !! file_path) record) ∨
  (open_error file_path = None ∧
   ∃ writable items,
     disk w !! file_path = Some (File true writable (Document (VDict items)))).
Proof.
  destruct (open_error file_path) as [e|] eqn:Hnul.
  { left. exists e. split; [done|]. by apply load_data_refused. }
  right.
  destruct (disk w !! file_path) as [[[] writable [| | |data]|]|] eqn:Hfile;
    try (right; left; split; [done|]; eexists; by constructor).
  - left. split; [done|]. exists writable, Undecodable, UnicodeDecodeError.
    split; [done|]. split; [done|]. by eapply load_data_undecodable.
  - left. split; [done|]. exists writable, TooDeep, RecursionError.
    split; [done|]. split; [done|]. by eapply load_data_undecodable.
  - destruct data; try (right; left; split; [done|]; eexists; by constructor).
    right. right. split; [done|]. by eexists _, _.
Qed.

Lemma load_data_result file_path w writable items w' :
  disk w !! file_path = Some (File true writable (Document (VDict items))) →
  load_data file_path w = (Ret tt, w') →
  stock_data w' = foldl store ∅ (kept items) ∪ ∅ ∧
  disk w' = disk w ∧
  console w' = console w ++ warnings items ++ [(INFO, Loaded file_path)].
Proof.
  intros Hfile Hrun. pose proof (load_data_completed _ _ _ Hrun) as Hvalid.
  revert Hrun. rewrite (load_data_object _ _ _ _ Hvalid Hfile).
  destruct (for_each items sanitize_entry ∅ w) as [[sanitized|e] w1] eqn:Hloop;
    [|discriminate].
  apply sanitize_loop in Hloop as (_ & Hdisk & Hret).
  destruct (Hret sanitized eq_refl) as [-> Hconsole].
  intros [= <-]. simpl. by rewrite Hconsole, <-app_assoc.
Qed.

Lemma load_data_lookup file_path w writable items w' k q :
  disk w !! file_path = Some (File true writable (Document (VDict items))) →
  NoDup items.*1 →
  load_data file_path w = (Ret tt, w') →
  stock_data w' !! k = Some q ↔ (k, q) ∈ kept items.
Proof.
  intros Hfile Hnodup Hrun.
  destruct (load_data_result _ _ _ _ _ Hfile Hrun) as (-> & _ & _).
  apply kept_NoDup in Hnodup.
  rewrite foldl_store by done. rewrite !(right_id_L ∅ (∪)).
  by rewrite <-elem_of_list_to_map.
Qed.

Lemma load_data_total file_path w writable items :
  open_error file_path = None →
  disk w !! file_path = Some (File true writable (Document (VDict items))) →
  (∀ k s, (VStr k, VFloat (S754_infinity s)) ∉ items) →
  ∃ w', load_data file_path w = (Ret tt, w').
Proof.
  intros Hvalid Hfile Hfinite. rewrite (load_data_object _ _ _ _ Hvalid Hfile).
  destruct (sanitize_loop_total items ∅ w) as (sanitized & w1 & ->); [|by eexists].
  apply Forall_forall. intros entry Hin e Hjudge.
  apply judge_failed in Hjudge as (_ & k & s & ->). by apply (Hfinite k s).
Qed.

Lemma warnings_elem items m :
  (WARNING, m) ∈ warnings items ↔ ∃ entry, entry ∈ items ∧ judge entry = Skipped m.
Proof.
  unfold warnings. rewrite list_elem_of_omap. split.
  - intros (entry & Hin & Hjudge). exists entry. split; [done|].
    destruct (judge entry); congruence.
  - intros (entry & Hin & Hjudge). exists entry. split; [done|].
    cbv beta. by rewrite Hjudge.
Qed.

(** C6: when [load_data] stops before it has a sanitized result for a
    cause that one of its [except] clauses or its type test names (no file
    at the path, a file or path that cannot be read, text that is not JSON,
    a JSON value that is not an object), it returns normally, and dictionary
    and files are as they were; its only effect is the record it logs.  Two
    causes are named by no clause and reach the caller as exceptions, with
    the state untouched: a file that [json.load] cannot decode (bytes that
    are not UTF-8 raise [UnicodeDecodeError], JSON nested too deep raises
    [RecursionError]), and a path that [open] refuses (a NUL character, a
    surrogate that cannot be encoded) raises the [ValueError] of [open]; so
    a file holding the one byte FF makes [load_data] raise. *)
Theorem load_data_abort_keeps_stock (file_path : string) (w : world) :
  (∀ record,
     open_error file_path = None →
     fails_early file_path (disk w !! file_path) record →
     load_data file_path w
       = (Ret tt, World (stock_data w) (disk w) (console w ++ [record]))) ∧
  (∀ writable c e,
     open_error file_path = None →
     disk w !! file_path = Some (File true writable c) →
     decode_error c = Some e →
     load_data file_path w = (Raise e, w)) ∧
  (∀ e, open_error file_path = Some e → load_data file_path w = (Raise e, w)) ∧
  load_data "inventory.json"
    (World {["apple" := 7]} {["inventory.json" := File true true Undecodable]} [])
  = (Raise UnicodeDecodeError,
     World {["apple" := 7]} {["inventory.json" := File true true Undecodable]} []).
Proof.
  split; [|split; [|split]].
  - intros record Hvalid Hfail. by apply load_data_fails_early.
  - intros writable c e Hvalid Hfile Herror. by eapply load_data_undecodable.
  - intros e. apply load_data_refused.
  - reflexivity.
Qed.

Lemma load_data_abort_keeps_stock_witness :
  load_data "inventory.json" (World {["apple" := 7]} ∅ [])
  = (Ret tt, World {["apple" := 7]} ∅ [(INFO, FileMissing "inventory.json")]).
Proof.
  exact (proj1 (load_data_abort_keeps_stock "inventory.json"
                  (World {["apple" := 7]} ∅ []))
           (INFO, FileMissing "inventory.json") eq_refl
           (fails_missing "inventory.json")).
Defined.

(** C3, as the code has it: a load that completes replaces the dictionary by
    the sanitized items of the loaded object, so that every entry afterwards
    comes from the object; under a non-empty string key an item is kept
    exactly when [int(value)] succeeds with a result [>= 0] (an integer, a
    boolean, a float after truncation, numeric text), and it is stored with
    that result; an item whose key is not a string is skipped with a
    warning; an item with a non-empty string key and a non-negative integer
    value is kept as it is.  The load completes unless a value is an
    infinite float.  The object with x: -1, y: "bad", 5: 1 leaves the
    dictionary empty, with one warning for each item.  (The path is one
    that [open] accepts, without a NUL character.) *)
Theorem load_data_sanitized (file_path : string) (w : world) (writable : bool)
    (items : list (pyval * pyval)) :
  open_error file_path = None →
  disk w !! file_path = Some (File true writable (Document (VDict items))) →
  NoDup items.*1 →
  (∀ w', load_data file_path w = (Ret tt, w') →
     (∀ k q, stock_data w' !! k = Some q →
        ∃ val, (VStr k, val) ∈ items ∧ py_int val = Ret q ∧ 0 ≤ q) ∧
     (∀ k q, k ≠ "" →
        stock_data w' !! k = Some q ↔
        ∃ val, (VStr k, val) ∈ items ∧ py_int val = Ret q ∧ 0 ≤ q) ∧
     (∀ k q, k ≠ "" → 0 ≤ q → (VStr k, VInt q) ∈ items →
        stock_data w' !! k = Some q) ∧
     (∀ key val, (key, val) ∈ items → isinstance_str key = false →
        (WARNING, SkippedKey key) ∈ console w')) ∧
  ((∀ k s, (VStr k, VFloat (S754_infinity s)) ∉ items) →
     ∃ w', load_data file_path w = (Ret tt, w')) ∧
  (items = example_items →
     load_data file_path w =
       (Ret tt,
        World ∅ (disk w)
          (console w ++ [(WARNING, SkippedNegative "x" (-1));
                         (WARNING, SkippedInvalid "y" (VStr "bad"));
                         (WARNING, SkippedKey (VInt 5));
                         (INFO, Loaded file_path)]))).
Proof.
  intros Hvalid Hfile Hnodup. split; [|split].
  - intros w' Hrun.
    assert (∀ k q, stock_data w' !! k = Some q ↔
              ∃ val, (VStr k, val) ∈ items ∧ py_int val = Ret q ∧ 0 ≤ q) as Hiff.
    { intros k q. rewrite <-kept_elem.
      exact (load_data_lookup file_path w writable items w' k q Hfile Hnodup Hrun). }
    split; [|split; [|split]].
    + intros k q. apply Hiff.
    + intros k q _. apply Hiff.
    + intros k q _ Hq Hin. apply Hiff. by exists (VInt q).
    + intros key val Hin Hkey.
      destruct (load_data_result _ _ _ _ _ Hfile Hrun) as (_ & _ & ->).
      apply elem_of_app. right. apply elem_of_app. left.
      apply warnings_elem. exists (key, val). split; [done|].
      unfold judge. cbn [fst snd]. by destruct key.
  - by apply (load_data_total file_path w writable).
  - intros ->. rewrite (load_data_object _ _ _ _ Hvalid Hfile).
    assert (for_each example_items sanitize_entry ∅ w =
              (Ret ∅, World (stock_data w) (disk w)
                        (((console w ++ [(WARNING, SkippedNegative "x" (-1))])
                            ++ [(WARNING, SkippedInvalid "y" (VStr "bad"))])
                           ++ [(WARNING, SkippedKey (VInt 5))]))) as ->
      by reflexivity.
    cbn [disk console]. by rewrite (left_id_L ∅ (∪)), <-!app_assoc.
Qed.

Lemma load_data_sanitized_witness :
  load_data "inventory.json"
    (World {["apple" := 7]}
       {["inventory.json" := File true true (Document (VDict example_items))]} [])
  = (Ret tt,
     World ∅ {["inventory.json" := File true true (Document (VDict example_items))]}
       [(WARNING, SkippedNegative "x" (-1));
        (WARNING, SkippedInvalid "y" (VStr "bad"));
        (WARNING, SkippedKey (VInt 5));
        (INFO, Loaded "inventory.json")]).
Proof.
  destruct (load_data_sanitized "inventory.json"
              (World {["apple" := 7]}
                 {["inventory.json" := File true true (Document (VDict example_items))]} [])
              true example_items) as (_ & _ & Hexample).
  - reflexivity.
  - reflexivity.
  - repeat (apply NoDup_cons; split; [by rewrite ?elem_of_cons, elem_of_nil; intuition discriminate|]).
    apply NoDup_nil_2.
  - exact (Hexample eq_refl).
Defined.

Lemma sanitize_loop_completed items : ∀ sanitized w result w',
  for_each items sanitize_entry sanitized w = (Ret result, w') →
  Forall (λ entry, ∀ e, judge entry ≠ Failed e) items.
Proof.
  induction items as [|entry items IH]; intros sanitized w result w'; [by constructor|].
  cbn [for_each]. unfold bind at 1. rewrite sanitize_entry_judge.
  destruct (judge entry) as [k q|m|e] eqn:Hjudge; [| |discriminate];
    intros Hrun%IH; constructor; try done; by rewrite Hjudge.
Qed.

(** What a completed load did with the item found under the string key
    [k]. *)
Lemma load_data_entry file_path w writable items k val w' :
  disk w !! file_path = Some (File true writable (Document (VDict items))) →
  NoDup items.*1 →
  (VStr k, val) ∈ items →
  load_data file_path w = (Ret tt, w') →
  match judge (VStr k, val) with
  | Kept _ q => stock_data w' !! k = Some q
  | Skipped m => stock_data w' !! k = None ∧ (WARNING, m) ∈ console w'
  | Failed _ => False
  end.
Proof.
  intros Hfile Hnodup Hin Hrun.
  pose proof (λ q, load_data_lookup file_path w writable items w' k q
                     Hfile Hnodup Hrun) as Hlookup.
  destruct (judge (VStr k, val)) as [k' q|m|e] eqn:Hjudge.
  - apply Hlookup. unfold kept. apply list_elem_of_omap.
    exists (VStr k, val). split; [done|]. rewrite Hjudge.
    unfold judge in Hjudge. cbn [fst snd] in Hjudge.
    destruct (py_int val) as [q'|e]; [destruct (q' <? 0)|
      destruct (exn_isa e TypeError || exn_isa e ValueError)]; congruence.
  - split.
    + apply eq_None_not_Some. intros [q Hq].
      apply Hlookup, kept_elem in Hq as (val' & Hin' & Hint & Hnonneg).
      rewrite (NoDup_fst_agree _ _ _ _ Hnodup Hin' Hin) in Hint.
      unfold judge in Hjudge. cbn [fst snd] in Hjudge. rewrite Hint in Hjudge.
      by assert ((q <? 0) = false) as Hlt by lia; rewrite Hlt in Hjudge.
    + destruct (load_data_result _ _ _ _ _ Hfile Hrun) as (_ & _ & ->).
      apply elem_of_app. right. apply elem_of_app. left.
      apply warnings_elem. by exists (VStr k, val).
  - pose proof (load_data_completed _ _ _ Hrun) as Hvalid.
    rewrite (load_data_object _ _ _ _ Hvalid Hfile) in Hrun.
    destruct (for_each items sanitize_entry ∅ w) as [[sanitized|e'] w1] eqn:Hloop;
      [|discriminate].
    apply sanitize_loop_completed in Hloop.
    by eapply (proj1 (Forall_forall _ _) Hloop) in Hin.
Qed.

(** [int] of a finite float is its value with the fraction dropped: the
    magnitude is [m * 2^e] for [e >= 0] and the quotient of [m] by [2^(-e)]
    otherwise, and the sign is kept. *)
Lemma int_of_float_finite s m e :
  int_of_float (S754_finite s m e) =
    Ret ((if s then -1 else 1) *
         (if 0 <=? e then Z.pos m * 2 ^ e else Z.pos m / 2 ^ (- e))).
Proof.
  unfold int_of_float. cbv zeta. f_equal.
  destruct (Z.leb_spec 0 e).
  - rewrite Z.shiftl_mul_pow2 by done.
    generalize (Z.pos m * 2 ^ e). intros magnitude. destruct s; lia.
  - replace (Z.shiftl (Z.pos m) e) with (Z.pos m / 2 ^ (- e)).
    + generalize (Z.pos m / 2 ^ (- e)). intros magnitude. destruct s; lia.
    + rewrite <-Z.shiftr_div_pow2 by lia. rewrite <-Z.shiftl_opp_r.
      by rewrite Z.opp_involutive.
Qed.

(** C7, as the code has it: during a load that completes, an item whose
    value is a float goes through [int]: a finite float is truncated toward
    zero and the item is stored with the truncated quantity when that is
    [>= 0] (so 2.5 is stored as 2), and skipped with a warning when it is
    negative; a zero is stored as 0; a NaN is skipped with a warning. *)
Theorem load_data_float (file_path : string) (w : world) (writable : bool)
    (items : list (pyval * pyval)) (k : string) (f : spec_float) (w' : world) :
  disk w !! file_path = Some (File true writable (Document (VDict items))) →
  NoDup items.*1 →
  (VStr k, VFloat f) ∈ items →
  load_data file_path w = (Ret tt, w') →
  match f with
  | S754_finite s m e =>
      let q := (if s then -1 else 1) *
               (if 0 <=? e then Z.pos m * 2 ^ e else Z.pos m / 2 ^ (- e)) in
      if q <? 0
      then stock_data w' !! k = None ∧ (WARNING, SkippedNegative k q) ∈ console w'
      else stock_data w' !! k = Some q
  | S754_zero _ => stock_data w' !! k = Some 0
  | S754_nan =>
      stock_data w' !! k = None ∧
      (WARNING, SkippedInvalid k (VFloat S754_nan)) ∈ console w'
  | S754_infinity _ => False
  end ∧
  (f = two_and_a_half → stock_data w' !! k = Some 2).
Proof.
  intros Hfile Hnodup Hin Hrun.
  pose proof (load_data_entry _ _ _ _ _ _ _ Hfile Hnodup Hin Hrun) as Hentry.
  unfold judge in Hentry. cbn [fst snd py_int] in Hentry. split.
  - destruct f as [s|s| |s m e]; try exact Hentry.
    rewrite int_of_float_finite in Hentry. cbv zeta.
    by destruct (_ <? 0).
  - intros ->. exact Hentry.
Qed.

Lemma load_data_float_witness :
  stock_data
    (load_data "inventory.json"
       (World ∅ {["inventory.json" :=
                    File true true (Document (VDict [(VStr "a", VFloat two_and_a_half)]))]}
          [])).2 !! "a" = Some 2.
Proof.
  destruct (load_data_float "inventory.json"
              (World ∅ {["inventory.json" :=
                 File true true (Document (VDict [(VStr "a", VFloat two_and_a_half)]))]} [])
              true [(VStr "a", VFloat two_and_a_half)] "a" two_and_a_half
              (load_data "inventory.json"
                 (World ∅ {["inventory.json" :=
                    File true true (Document (VDict [(VStr "a", VFloat two_and_a_half)]))]}
                    [])).2)
    as [_ Hstored].
  - reflexivity.
  - apply NoDup_singleton.
  - apply list_elem_of_singleton. reflexivity.
  - reflexivity.
  - exact (Hstored eq_refl).
Defined.

(** A float value is neither discarded nor refused: loading the object
    with a: 2.5 completes without a warning and stores 2 under a. *)
Lemma load_data_stores_truncated_float :
  load_data "inventory.json"
    (World ∅ {["inventory.json" :=
                 File true true (Document (VDict [(VStr "a", VFloat two_and_a_half)]))]} [])
  = (Ret tt,
     World {["a" := 2]}
       {["inventory.json" :=
           File true true (Document (VDict [(VStr "a", VFloat two_and_a_half)]))]}
       [(INFO, Loaded "inventory.json")]).
Proof. reflexivity. Qed.

(** An item whose value is text, not an integer, is kept all the same: the
    object with a: "7" loads as the quantity 7 under a. *)
Lemma load_data_keeps_numeric_text :
  ¬ valid_entry (VStr "a", VStr "7") ∧
  load_data "inventory.json"
    (World ∅ {["inventory.json" :=
                 File true true (Document (VDict [(VStr "a", VStr "7")]))]} [])
  = (Ret tt,
     World {["a" := 7]}
       {["inventory.json" :=
           File true true (Document (VDict [(VStr "a", VStr "7")]))]}
       [(INFO, Loaded "inventory.json")]).
Proof.
  split; [|reflexivity]. intros (k & q & Hentry & _). discriminate.
Qed.

(** ** The quantities that can be stored *)

Lemma add_item_stock item qty logs now w :
  stock_data (add_item item qty logs now w).2 = stock_data w ∨
  ∃ name q, 0 ≤ q ∧
    stock_data (add_item item qty logs now w).2
      = <[name := default 0 (stock_data w !! name) + q]> (stock_data w).
Proof.
  unfold add_item. destruct item as [| | | |[|c name]| |]; try by left.
  destruct (int_value qty) as [q|]; [|by left].
  destruct (Z.ltb_spec q 0); [by left|].
  right. by exists (String c name), q.
Qed.

Lemma remove_item_stock item qty w :
  stock_data (remove_item item qty w).2 = stock_data w ∨
  ∃ name current q, stock_data w !! name = Some current ∧
    ((current ≤ q ∧ stock_data (remove_item item qty w).2 = delete name (stock_data w)) ∨
     (q < current ∧
      stock_data (remove_item item qty w).2 = <[name := current - q]> (stock_data w))).
Proof.
  unfold remove_item. destruct item as [| | | |[|c name]| |]; try by left.
  destruct (int_value qty) as [q|]; [|by left].
  destruct (Z.ltb_spec q 0); [by left|].
  unfold bind, get_stock.
  destruct (stock_data w !! String c name) as [current|] eqn:Hcur; [|by left].
  right. exists (String c name), current, q. split; [done|].
  destruct (Z.leb_spec current q); [left|right]; done.
Qed.

Lemma kept_nonneg items : Forall (λ kq : string * Z, 0 ≤ kq.2) (kept items).
Proof.
  apply Forall_forall. intros [k q] Hin.
  by apply kept_elem in Hin as (val & _ & _ & Hq).
Qed.

Lemma foldl_store_nonneg (l : list (string * Z)) : ∀ m,
  stock_nonneg m → Forall (λ kq : string * Z, 0 ≤ kq.2) l →
  stock_nonneg (foldl store m l).
Proof.
  induction l as [|[k q] l IH]; intros m Hm Hl; [done|].
  apply Forall_cons in Hl as [Hq Hl]. simpl. apply IH; [|done].
  intros k' q'. unfold store. simpl.
  destruct (decide (k = k')) as [->|Hne].
  - rewrite lookup_insert_eq. by intros [= <-].
  - rewrite lookup_insert_ne by done. apply Hm.
Qed.

Lemma load_data_stock file_path w :
  stock_data (load_data file_path w).2 = stock_data w ∨
  ∃ items, stock_data (load_data file_path w).2 = foldl store ∅ (kept items) ∪ ∅.
Proof.
  destruct (load_data_cases file_path w)
    as [(e & _ & ->)|[(_ & wr & c & e & _ & _ & ->)
       |[[Hvalid [record Hfail]]|(Hvalid & wr & items & Hfile)]]];
    [by left|by left| |].
  - left. by rewrite (load_data_fails_early _ _ _ Hvalid Hfail).
  - rewrite (load_data_object _ _ _ _ Hvalid Hfile).
    destruct (for_each items sanitize_entry ∅ w) as [[sanitized|e] w1] eqn:Hloop;
      apply sanitize_loop in Hloop as (Hstock & _ & Hret).
    + right. exists items. simpl. by destruct (Hret sanitized eq_refl) as [-> _].
    + by left.
Qed.

(** C4, as the code has it: no operation stores a negative quantity, so a
    dictionary without negative quantities stays so through [add_item],
    [remove_item] and [load_data], whatever their arguments and outcome;
    [remove_item] deletes an entry instead of leaving it at zero or below,
    so it also keeps a dictionary of positive quantities positive.  A
    quantity of zero is stored by [add_item] and by [load_data]. *)
Theorem stock_never_negative (w : world) :
  stock_nonneg (stock_data w) →
  (∀ item qty logs now, stock_nonneg (stock_data (add_item item qty logs now w).2)) ∧
  (∀ item qty, stock_nonneg (stock_data (remove_item item qty w).2)) ∧
  (∀ file_path, stock_nonneg (stock_data (load_data file_path w).2)) ∧
  (stock_positive (stock_data w) →
     ∀ item qty, stock_positive (stock_data (remove_item item qty w).2)).
Proof.
  intros Hnonneg. split; [|split; [|split]].
  - intros item qty logs now.
    destruct (add_item_stock item qty logs now w) as [->|(name & q & Hq & ->)]; [done|].
    intros k q'. destruct (decide (name = k)) as [->|Hne].
    + rewrite lookup_insert_eq. intros [= <-].
      specialize (Hnonneg k). destruct (stock_data w !! k) as [current|]; simpl.
      * specialize (Hnonneg current eq_refl). lia.
      * lia.
    + rewrite lookup_insert_ne by done. apply Hnonneg.
  - intros item qty.
    destruct (remove_item_stock item qty w)
      as [->|(name & current & q & Hcur & [[_ ->]|[Hlt ->]])]; [done| |].
    + intros k q' [_ Hk]%lookup_delete_Some. by apply (Hnonneg k).
    + intros k q'. destruct (decide (name = k)) as [->|Hne].
      * rewrite lookup_insert_eq. intros [= <-]. lia.
      * rewrite lookup_insert_ne by done. apply Hnonneg.
  - intros file_path.
    destruct (load_data_stock file_path w) as [->|[items ->]]; [done|].
    rewrite (right_id_L ∅ (∪)). apply foldl_store_nonneg; [|apply kept_nonneg].
    intros k q. by rewrite lookup_empty.
  - intros Hpositive item qty.
    destruct (remove_item_stock item qty w)
      as [->|(name & current & q & Hcur & [[_ ->]|[Hlt ->]])]; [done| |].
    + intros k q' [_ Hk]%lookup_delete_Some. by apply (Hpositive k).
    + intros k q'. destruct (decide (name = k)) as [->|Hne].
      * rewrite lookup_insert_eq. intros [= <-]. lia.
      * rewrite lookup_insert_ne by done. apply Hpositive.
Qed.

Lemma stock_never_negative_witness :
  stock_nonneg
    (stock_data (remove_item (VStr "apple") (VInt 3) (World {["apple" := 10]} ∅ [])).2).
Proof.
  destruct (stock_never_negative (World {["apple" := 10]} ∅ [])) as (_ & Hremove & _).
  - intros k q. cbn [stock_data]. intros [_ <-]%lookup_singleton_Some. lia.
  - exact (Hremove (VStr "apple") (VInt 3)).
Defined.

(** A quantity of zero is stored, not removed: [add_item("apple", 0)] on the
    empty dictionary creates the entry apple with quantity 0. *)
Lemma zero_quantity_is_stored :
  stock_positive (stock_data (World ∅ ∅ [])) ∧
  add_item (VStr "apple") (VInt 0) None "t" (World ∅ ∅ [])
    = (Ret None, World {["apple" := 0]} ∅ [(INFO, Added 0 "apple")]) ∧
  ¬ stock_positive {["apple" := 0]}.
Proof.
  split; [|split].
  - intros k q. simpl. by rewrite lookup_empty.
  - reflexivity.
  - intros Hpositive. specialize (Hpositive "apple" 0 eq_refl). lia.
Qed.

(** ** Saving and loading back *)

Lemma save_data_ok file_path w :
  can_write (disk w) file_path →
  ∃ readable,
    save_data file_path w =
      (Ret tt,
       World (stock_data w)
         (<[file_path := File readable true (Document (json_object (stock_data w)))]>
            (disk w))
         (console w ++ [(INFO, Saved file_path)])) ∧
    (can_read_back (disk w) file_path → readable = true) ∧
    (∀ n, disk w !! file_path = Some n → ∃ c, n = File readable true c).
Proof.
  unfold can_write, can_read_back, save_data, try_except, json_dump.
  intros (Hnul & Hpath & Hnode).
  unfold bind at 1. unfold get_stock. unfold bind at 1.
  rewrite Hnul, bool_decide_eq_false_2 by done.
  destruct (disk w !! file_path) as [[readable writable c|]|]; [|done|].
  - subst writable. exists readable. split; [done|]. split; [done|].
    intros n [= <-]. by eexists.
  - exists true. by split.
Qed.

Lemma kept_encode (l : list (string * Z)) :
  Forall (λ kq : string * Z, 0 ≤ kq.2) l → kept (encode <$> l) = l.
Proof.
  induction l as [|[k q] l IH]; [done|].
  intros [Hq Hl]%Forall_cons. simpl in Hq.
  rewrite fmap_cons, kept_cons, IH by done.
  unfold judge, encode. cbn [fst snd py_int].
  by assert ((q <? 0) = false) as -> by lia.
Qed.

Lemma encode_not_failed (l : list (string * Z)) :
  Forall (λ entry, ∀ e, judge entry ≠ Failed e) (encode <$> l).
Proof.
  apply Forall_fmap, Forall_forall. intros [k q] _ e. simpl.
  unfold judge, encode. cbn [fst snd py_int]. by destruct (q <? 0).
Qed.

Lemma sorted_items_map (stock : gmap string Z) :
  list_to_map (merge_sort key_le (map_to_list stock)) = stock.
Proof.
  rewrite <-(list_to_map_to_list stock) at 2.
  apply list_to_map_proper; [|apply merge_sort_Permutation].
  rewrite (merge_sort_Permutation key_le (map_to_list stock)).
  apply NoDup_fst_map_to_list.
Qed.

Lemma dict_set_fresh (d : list (string * Z)) k q :
  k ∉ d.*1 → dict_set d k q = d ++ [(k, q)].
Proof.
  induction d as [|[k' q'] d IH]; [done|].
  intros Hfresh. apply not_elem_of_cons in Hfresh as [Hne Hfresh]. simpl.
  destruct (decide (k' = k)) as [->|_]; [done|]. by rewrite IH.
Qed.

Lemma dict_set_all_fresh (l : list (string * Z)) : ∀ d,
  NoDup (d ++ l).*1 →
  Forall (λ kq : string * Z, json_text kq.1 = kq.1) l →
  foldl (λ d kq, dict_set d (json_text kq.1) kq.2) d l = d ++ l.
Proof.
  induction l as [|[k q] l IH]; intros d Hnodup Hstable.
  - by rewrite app_nil_r.
  - apply Forall_cons in Hstable as [Hk Hstable]. simpl in Hk. simpl.
    rewrite Hk, dict_set_fresh.
    + rewrite IH; [by rewrite <-app_assoc| |done]. by rewrite <-app_assoc.
    + rewrite fmap_app in Hnodup. apply NoDup_app in Hnodup as (_ & Hdisjoint & _).
      intros Hin. apply (Hdisjoint k Hin). by left.
Qed.

(** With keys that come back as they are, the members read back are the
    entries in key order. *)
Lemma json_members_stable (stock : gmap string Z) :
  json_stable stock →
  json_members stock = merge_sort key_le (map_to_list stock).
Proof.
  intros Hstable. unfold json_members.
  assert (merge_sort key_le (map_to_list stock) ≡ₚ map_to_list stock) as Hperm
    by apply merge_sort_Permutation.
  rewrite dict_set_all_fresh; [done| |].
  - simpl. rewrite Hperm. apply NoDup_fst_map_to_list.
  - rewrite Hperm. apply Forall_forall. intros [k q] Hin.
    apply elem_of_map_to_list in Hin. apply Hstable. by exists q.
Qed.

(** Loading the object that [save_data] writes gives the saved dictionary,
    whatever the dictionary held before the load. *)
Lemma load_saved_object file_path w writable (stock : gmap string Z) :
  open_error file_path = None →
  stock_nonneg stock → json_stable stock →
  disk w !! file_path = Some (File true writable (Document (json_object stock))) →
  ∃ w', load_data file_path w = (Ret tt, w') ∧ stock_data w' = stock.
Proof.
  intros Hvalid Hnonneg Hstable Hfile. unfold json_object in Hfile.
  rewrite json_members_stable in Hfile by done.
  set (sorted := merge_sort key_le (map_to_list stock)) in *.
  assert (sorted ≡ₚ map_to_list stock) as Hperm by apply merge_sort_Permutation.
  assert (Forall (λ kq : string * Z, 0 ≤ kq.2) sorted) as Hsorted.
  { rewrite Hperm. apply Forall_forall. intros [k q] Hin.
    apply elem_of_map_to_list in Hin. by apply (Hnonneg k). }
  rewrite (load_data_object _ _ _ _ Hvalid Hfile).
  destruct (sanitize_loop_total (encode <$> sorted) ∅ w (encode_not_failed sorted))
    as (sanitized & w1 & Hloop).
  rewrite Hloop. eexists. split; [reflexivity|]. simpl.
  apply sanitize_loop in Hloop as (_ & _ & Hret).
  destruct (Hret sanitized eq_refl) as [-> _].
  rewrite kept_encode by done. rewrite foldl_store.
  - rewrite !(right_id_L ∅ (∪)). apply sorted_items_map.
  - rewrite Hperm. apply NoDup_fst_map_to_list.
Qed.

(** C5, as the code has it: take a dictionary without negative quantities
    whose keys come back from JSON as they are (none holds a high surrogate
    directly followed by a low one), and a path that [save_data] can write
    and at which the file can then be read.  Then [save_data] returns
    normally, and a [load_data] of that path in any state that has the file
    as it was written, whatever its dictionary holds, returns normally with
    exactly the saved keys and quantities; in particular [save_data]
    followed at once by [load_data] does. *)
Theorem save_load_roundtrip (file_path : string) (w : world) :
  stock_nonneg (stock_data w) →
  json_stable (stock_data w) →
  can_write (disk w) file_path →
  can_read_back (disk w) file_path →
  ∃ w1,
    save_data file_path w = (Ret tt, w1) ∧
    (∀ w2, disk w2 !! file_path = disk w1 !! file_path →
       ∃ w3, load_data file_path w2 = (Ret tt, w3) ∧ stock_data w3 = stock_data w) ∧
    (∃ w3, (save_data file_path ;; load_data file_path) w = (Ret tt, w3) ∧
           stock_data w3 = stock_data w).
Proof.
  intros Hnonneg Hstable Hwrite Hread.
  destruct (save_data_ok file_path w Hwrite) as (readable & Hsave & Hreadable & _).
  rewrite (Hreadable Hread) in Hsave. destruct Hwrite as (Hvalid & _ & _).
  eexists. split; [exact Hsave|].
  assert (∀ w2,
            disk w2 !! file_path
            = Some (File true true (Document (json_object (stock_data w)))) →
            ∃ w3, load_data file_path w2 = (Ret tt, w3) ∧ stock_data w3 = stock_data w)
    as Hload.
  { intros w2 Hfile. by apply (load_saved_object file_path w2 true). }
  split.
  - intros w2 Hsame. apply Hload. rewrite Hsame. cbn [disk].
    apply lookup_insert_eq.
  - unfold bind. rewrite Hsave. apply Hload. cbn [disk]. apply lookup_insert_eq.
Qed.

Lemma save_load_roundtrip_witness :
  ∃ w1 w3,
    save_data "inventory.json" (World {["apple" := 7; "banana" := 2]} ∅ [])
      = (Ret tt, w1) ∧
    load_data "inventory.json" (World {["cherry" := 1]} (disk w1) []) = (Ret tt, w3) ∧
    stock_data w3 = {["apple" := 7; "banana" := 2]}.
Proof.
  assert (stock_nonneg ({["apple" := 7; "banana" := 2]} : gmap string Z)) as Hnonneg.
  { intros k q.
    intros [[_ <-]|[_ [_ <-]%lookup_singleton_Some]]%lookup_insert_Some; lia. }
  assert (json_stable ({["apple" := 7; "banana" := 2]} : gmap string Z)) as Hstable.
  { intros k [q Hq].
    apply lookup_insert_Some in Hq as [[<- _]|[_ [<- _]%lookup_singleton_Some]];
      reflexivity. }
  destruct (save_load_roundtrip "inventory.json"
              (World {["apple" := 7; "banana" := 2]} ∅ []) Hnonneg Hstable)
    as (w1 & Hsave & Hload & _).
  - repeat split; done.
  - exact I.
  - destruct (Hload (World {["cherry" := 1]} (disk w1) []) eq_refl)
      as (w3 & Hrun & Hstock).
    exists w1, w3. split; [exact Hsave|]. split; [exact Hrun|exact Hstock].
Defined.

(** The round trip fails in two ways.  When the file at the path cannot be
    written, [save_data] logs the error and goes on, and [load_data] then
    reads what the file held before: the dictionary with apple 1 becomes the
    dictionary with pear 4.  And a key made of a high and a low surrogate is
    read back as the one character the pair encodes, so the dictionary comes
    back with another key. *)
Lemma save_then_load_changes_stock :
  (stock_nonneg {["apple" := 1]} ∧
   (save_data "inventory.json" ;; load_data "inventory.json")
     (World {["apple" := 1]}
        {["inventory.json" :=
            File true false (Document (VDict [(VStr "pear", VInt 4)]))]} [])
   = (Ret tt,
      World {["pear" := 4]}
        {["inventory.json" :=
            File true false (Document (VDict [(VStr "pear", VInt 4)]))]}
        [(ERROR, SaveFailed "inventory.json"); (INFO, Loaded "inventory.json")]) ∧
   ({["pear" := 4]} : gmap string Z) ≠ {["apple" := 1]}) ∧
  (stock_nonneg {[lone_surrogates := 1]} ∧
   stock_data
     ((save_data "inventory.json" ;; load_data "inventory.json")
        (World {[lone_surrogates := 1]} ∅ [])).2
   = {[astral_character := 1]} ∧
   ({[astral_character := 1]} : gmap string Z) ≠ {[lone_surrogates := 1]}).
Proof.
  split; split; [|split| |split].
  - intros k q [_ <-]%lookup_singleton_Some. lia.
  - reflexivity.
  - intros Heq. apply (f_equal (λ m : gmap string Z, m !! "apple")) in Heq.
    discriminate.
  - intros k q [_ <-]%lookup_singleton_Some. lia.
  - reflexivity.
  - intros Heq. apply (f_equal (λ m : gmap string Z, m !! astral_character)) in Heq.
    discriminate.
Qed.

(** * Further properties of the module *)

(** ** Items, one at a time *)

Lemma remove_item_ok name q w :
  name ≠ "" → 0 ≤ q →
  remove_item (VStr name) (VInt q) w =
    match stock_data w !! name with
    | None =>
        (Ret false,
         World (stock_data w) (disk w) (console w ++ [(WARNING, ItemNotFound name)]))
    | Some current =>
        (Ret true,
         World (if current <=? q then delete name (stock_data w)
                else <[name := current - q]> (stock_data w))
               (disk w) (console w ++ [(INFO, Removed q name)]))
    end.
Proof.
  intros Hname Hq. destruct name as [|c name]; [done|].
  assert ((q <? 0) = false) as Hlt by lia.
  unfold remove_item. cbn [int_value]. rewrite Hlt.
  unfold bind at 1. unfold get_stock.
  destruct (stock_data w !! String c name) as [current|]; [|reflexivity].
  by destruct (current <=? q).
Qed.

(** X1: [remove_item] never drives a quantity below zero: for valid arguments,
    whatever the dictionary holds, [get_qty] afterwards is the quantity
    before minus [q], or 0 when that difference is not positive (which
    covers the absent item). *)
Theorem remove_item_floors_at_zero (name : string) (q : Z) (w : world) :
  name ≠ "" → 0 ≤ q →
  ∃ found w',
    remove_item (VStr name) (VInt q) w = (Ret found, w') ∧
    get_qty (VStr name) w'
      = (Ret (Z.max 0 (default 0 (stock_data w !! name) - q)), w').
Proof.
  intros Hname Hq. rewrite remove_item_ok by done.
  destruct (stock_data w !! name) as [current|] eqn:Hcur.
  - eexists _, _. split; [reflexivity|]. rewrite get_qty_ok by done.
    cbn [stock_data default]. destruct (Z.leb_spec current q).
    + rewrite lookup_delete_eq. simpl. do 2 f_equal. lia.
    + rewrite lookup_insert_eq. simpl. do 2 f_equal. lia.
  - eexists _, _. split; [reflexivity|]. rewrite get_qty_ok by done.
    cbn [stock_data]. rewrite Hcur. simpl. do 2 f_equal. lia.
Qed.

Lemma remove_item_floors_at_zero_witness :
  ∃ found w',
    remove_item (VStr "apple") (VInt 30) (World {["apple" := 10]} ∅ []) = (Ret found, w') ∧
    get_qty (VStr "apple") w' = (Ret 0, w').
Proof.
  destruct (remove_item_floors_at_zero "apple" 30 (World {["apple" := 10]} ∅ []))
    as (found & w' & Hrun & Hget); [done|lia|].
  exists found, w'. split; [exact Hrun|exact Hget].
Defined.

(** X2: Adding a quantity and removing it again gives every item the quantity
    it had, provided the item's quantity was not negative; when it was
    positive the dictionary itself is the same as before, and otherwise the
    item is left without an entry. *)
Theorem add_then_remove_restores (name : string) (q : Z)
    (logs : option (list string)) (now : string) (w : world) :
  name ≠ "" → 0 ≤ q → 0 ≤ default 0 (stock_data w !! name) →
  ∃ w',
    (add_item (VStr name) (VInt q) logs now ;; remove_item (VStr name) (VInt q)) w
      = (Ret true, w') ∧
    (∀ item, default 0 (stock_data w' !! item) = default 0 (stock_data w !! item)) ∧
    (0 < default 0 (stock_data w !! name) → stock_data w' = stock_data w) ∧
    (default 0 (stock_data w !! name) = 0 → stock_data w' = delete name (stock_data w)).
Proof.
  intros Hname Hq Hcur. unfold bind. rewrite add_item_ok by done.
  rewrite remove_item_ok by done. cbn [stock_data disk console].
  rewrite lookup_insert_eq.
  set (current := default 0 (stock_data w !! name)) in *.
  destruct (Z.leb_spec (current + q) q) as [Hle|Hgt].
  - assert (current = 0) as Hzero by lia.
    eexists. split; [reflexivity|]. cbn [stock_data].
    rewrite delete_insert_eq. split; [|split; [lia|done]].
    intros item. destruct (decide (name = item)) as [<-|Hne].
    + rewrite lookup_delete_eq. simpl. fold current. lia.
    + by rewrite lookup_delete_ne.
  - eexists. split; [reflexivity|]. cbn [stock_data].
    rewrite insert_insert_eq. replace (current + q - q) with current by lia.
    assert (stock_data w !! name = Some current) as Hsome.
    { unfold current in *. destruct (stock_data w !! name); [done|simpl in *; lia]. }
    rewrite (insert_id _ _ _ Hsome). split; [done|]. split; [done|lia].
Qed.

Lemma add_then_remove_restores_witness :
  ∃ w',
    (add_item (VStr "apple") (VInt 4) None "t" ;; remove_item (VStr "apple") (VInt 4))
      (World {["apple" := 10]} ∅ []) = (Ret true, w') ∧
    stock_data w' = {["apple" := 10]}.
Proof.
  destruct (add_then_remove_restores "apple" 4 None "t" (World {["apple" := 10]} ∅ []))
    as (w' & Hrun & _ & Hsame & _); [done|lia|by compute|].
  exists w'. split; [exact Hrun|]. apply Hsame. by compute.
Defined.

(** X3: An operation on one item leaves the others alone: [add_item] and
    [remove_item] never change the entry of a key other than their item,
    whatever their arguments and outcome, and never touch a file; [get_qty]
    and [check_low_items] change nothing at all. *)
Theorem operations_frame (item qty : pyval) (logs : option (list string))
    (now : string) (w : world) (k : string) :
  item ≠ VStr k →
  stock_data (add_item item qty logs now w).2 !! k = stock_data w !! k ∧
  stock_data (remove_item item qty w).2 !! k = stock_data w !! k ∧
  disk (add_item item qty logs now w).2 = disk w ∧
  disk (remove_item item qty w).2 = disk w ∧
  (get_qty item w).2 = w ∧
  (check_low_items qty w).2 = w.
Proof.
  intros Hitem.
  assert ((get_qty item w).2 = w) as Hget.
  { unfold get_qty. by destruct item as [| | | |[|c name]| |]. }
  assert ((check_low_items qty w).2 = w) as Hlow.
  { unfold check_low_items. destruct (int_value qty) as [t|]; [|done].
    by destruct (t <? 0). }
  unfold add_item, remove_item.
  destruct item as [| | | |[|c name]| |]; try done.
  assert (String c name ≠ k) as Hne by congruence.
  destruct (int_value qty) as [q|]; [|done].
  destruct (q <? 0); [done|].
  unfold bind, get_stock. cbn [set_stock logging ret fst snd stock_data disk].
  split; [by rewrite lookup_insert_ne|].
  destruct (stock_data w !! String c name) as [current|]; [|done].
  destruct (current <=? q); cbn [set_stock logging ret fst snd stock_data disk].
  - by rewrite lookup_delete_ne.
  - by rewrite lookup_insert_ne.
Qed.

Lemma operations_frame_witness :
  stock_data (remove_item (VStr "apple") (VInt 30)
                (World {["apple" := 10; "pear" := 4]} ∅ [])).2 !! "pear"
  = ({["apple" := 10; "pear" := 4]} : gmap string Z) !! "pear".
Proof.
  destruct (operations_frame (VStr "apple") (VInt 30) None "t"
              (World {["apple" := 10; "pear" := 4]} ∅ []) "pear")
    as (_ & Hremove & _); [discriminate|exact Hremove].
Defined.

(** ** What is refused, and how *)

Lemma remove_item_invalid item qty w :
  invalid_item item ∨ invalid_quantity qty →
  ∃ e, remove_item item qty w = (Raise e, w) ∧ InvalidArgument e.
Proof.
  unfold remove_item, InvalidArgument, invalid_item, invalid_quantity.
  destruct item as [| | | |[|c name]| |]; try by eauto.
  intros [[=]|Hq].
  destruct (int_value qty) as [q|]; [|by eauto].
  destruct (Z.ltb_spec q 0); [by eauto|lia].
Qed.

(** X4: The checks of [add_item], [remove_item] and [get_qty] are exact, and
    run in a fixed order: a call raises exactly when an argument is invalid;
    an item that is empty or not a string gives [TypeError] whatever the
    quantity is; with a good item, a quantity that is not an integer gives
    [TypeError] and a negative one [ValueError]. *)
Theorem validation_is_exact (item qty : pyval) (logs : option (list string))
    (now : string) (w : world) :
  ((∃ e, (add_item item qty logs now w).1 = Raise e)
     ↔ invalid_item item ∨ invalid_quantity qty) ∧
  ((∃ e, (remove_item item qty w).1 = Raise e)
     ↔ invalid_item item ∨ invalid_quantity qty) ∧
  ((∃ e, (get_qty item w).1 = Raise e) ↔ invalid_item item) ∧
  (invalid_item item →
     add_item item qty logs now w = (Raise TypeError, w) ∧
     remove_item item qty w = (Raise TypeError, w) ∧
     get_qty item w = (Raise TypeError, w)) ∧
  (¬ invalid_item item → int_value qty = None →
     add_item item qty logs now w = (Raise TypeError, w) ∧
     remove_item item qty w = (Raise TypeError, w)) ∧
  (¬ invalid_item item → ∀ q, int_value qty = Some q → q < 0 →
     add_item item qty logs now w = (Raise ValueError, w) ∧
     remove_item item qty w = (Raise ValueError, w)).
Proof.
  split; [|split; [|split; [|split; [|split]]]].
  - split.
    + intros [e He].
      destruct (add_item item qty logs now w) as [o w'] eqn:Hrun.
      simpl in He. subst o. by apply add_item_raises in Hrun as (_ & _ & ?).
    + intros Hinvalid.
      destruct (add_item_invalid item qty logs now w Hinvalid) as (e & -> & _).
      by exists e.
  - split.
    + intros [e He].
      destruct (remove_item item qty w) as [o w'] eqn:Hrun.
      simpl in He. subst o. by apply remove_item_raises in Hrun as (_ & _ & ?).
    + intros Hinvalid.
      destruct (remove_item_invalid item qty w Hinvalid) as (e & -> & _).
      by exists e.
  - unfold get_qty, invalid_item.
    destruct item as [| | | |[|c name]| |]; simpl; split; try done; try by eauto.
    by intros [e [=]].
  - unfold invalid_item, add_item, remove_item, get_qty.
    by destruct item as [| | | |[|c name]| |].
  - unfold invalid_item, add_item, remove_item.
    destruct item as [| | | |[|c name]| |]; try done. by intros _ ->.
  - unfold invalid_item, add_item, remove_item.
    destruct item as [| | | |[|c name]| |]; try done.
    intros _ q -> Hneg. by assert ((q <? 0) = true) as -> by lia.
Qed.

(** X5: A boolean passes the integer check: [add_item(item, True)] adds 1 and
    [add_item(item, False)] adds 0, with the boolean's own text in the
    caller's log line, and [check_low_items] takes [True] as the threshold
    1 and [False] as the threshold 0. *)
Theorem boolean_counts_as_integer (name : string) (b : bool)
    (logs : option (list string)) (now : string) (w : world) :
  name ≠ "" →
  add_item (VStr name) (VBool b) logs now w =
    (Ret ((λ l, l ++ [now +:+ ": Added " +:+ (if b then "True" else "False")
                        +:+ " of " +:+ name]) <$> logs),
     World (<[name := default 0 (stock_data w !! name) + (if b then 1 else 0)]>
              (stock_data w))
           (disk w)
           (console w ++ [(INFO, Added (if b then 1 else 0) name)])) ∧
  check_low_items (VBool b) w = check_low_items (VInt (if b then 1 else 0)) w.
Proof.
  intros Hname. destruct name as [|c name]; [done|]. by destruct b.
Qed.

Lemma boolean_counts_as_integer_witness :
  stock_data (add_item (VStr "apple") (VBool true) None "t"
                (World {["apple" := 10]} ∅ [])).2 !! "apple" = Some 11.
Proof.
  destruct (boolean_counts_as_integer "apple" true None "t"
              (World {["apple" := 10]} ∅ [])) as [Hadd _]; [done|].
  rewrite Hadd. reflexivity.
Defined.

(** ** The caller's log *)

Lemma add_items_run adds now : ∀ logs w,
  Forall (λ a : string * Z, a.1 ≠ "" ∧ 0 ≤ a.2) adds →
  ∃ stock,
    add_items adds now logs w =
      (Ret ((λ l, l ++ (log_line now <$> adds)) <$> logs),
       World stock (disk w)
         (console w ++ ((λ a : string * Z, (INFO, Added a.2 a.1)) <$> adds))).
Proof.
  induction adds as [|[name q] adds IH]; intros logs w Hvalid.
  - exists (stock_data w). unfold add_items. simpl. unfold ret.
    rewrite app_nil_r. destruct w, logs; simpl; by rewrite ?app_nil_r.
  - apply Forall_cons in Hvalid as [[Hname Hq] Hvalid]. simpl in Hname, Hq.
    unfold add_items. cbn [for_each fst snd]. unfold bind at 1.
    rewrite add_item_ok by done.
    destruct (IH ((λ l, l ++ [now +:+ ": Added " +:+ pretty q +:+ " of " +:+ name]) <$> logs)
                (World (<[name := default 0 (stock_data w !! name) + q]> (stock_data w))
                   (disk w) (console w ++ [(INFO, Added q name)])) Hvalid)
      as (stock & Hrun).
    exists stock. unfold add_items in Hrun. rewrite Hrun. cbn [disk console].
    rewrite !fmap_cons, <-app_assoc. f_equal. destruct logs as [l|]; [|done].
    simpl. by rewrite <-app_assoc.
Qed.

(** X6: A run of valid [add_item] calls that share a log list appends one line
    for each call, in call order, after the lines the list already had; it
    keeps [None] when no list is passed, logs one [INFO] record for each
    call, and touches no file. *)
Theorem add_items_log (adds : list (string * Z)) (now : string)
    (logs : option (list string)) (w : world) :
  Forall (λ a : string * Z, a.1 ≠ "" ∧ 0 ≤ a.2) adds →
  ∃ w',
    add_items adds now logs w =
      (Ret ((λ l, l ++ (log_line now <$> adds)) <$> logs), w') ∧
    console w' = console w ++ ((λ a : string * Z, (INFO, Added a.2 a.1)) <$> adds) ∧
    disk w' = disk w.
Proof.
  intros Hvalid. destruct (add_items_run adds now logs w Hvalid) as [stock ->].
  by eexists.
Qed.

Lemma add_items_log_witness :
  ∃ w',
    add_items [("apple", 10); ("banana", 2)] "t" (Some ["earlier"]) (World ∅ ∅ [])
      = (Ret (Some ["earlier"; "t: Added 10 of apple"; "t: Added 2 of banana"]), w').
Proof.
  destruct (add_items_log [("apple", 10); ("banana", 2)] "t" (Some ["earlier"])
              (World ∅ ∅ [])) as (w' & Hrun & _).
  { repeat constructor; simpl; done || lia. }
  exists w'. exact Hrun.
Defined.

(** ** Sorted output *)

Lemma string_leb_trans s1 s2 s3 :
  String.leb s1 s2 = true → String.leb s2 s3 = true → String.leb s1 s3 = true.
Proof.
  unfold String.leb. revert s2 s3.
  induction s1 as [|c1 s1 IH]; intros [|c2 s2] [|c3 s3]; simpl; try done.
  unfold Ascii.compare.
  destruct (N.compare_spec (N_of_ascii c1) (N_of_ascii c2)) as [H12|H12|H12];
    destruct (N.compare_spec (N_of_ascii c2) (N_of_ascii c3)) as [H23|H23|H23];
    destruct (N.compare_spec (N_of_ascii c1) (N_of_ascii c3)) as [H13|H13|H13];
    try done; try (exfalso; lia).
  apply IH.
Qed.

Global Instance key_le_total : Total key_le.
Proof. intros a b. unfold key_le. apply String.leb_total. Qed.

Global Instance key_le_trans : Transitive key_le.
Proof. intros a b c. unfold key_le. apply string_leb_trans. Qed.

(** The items in key order: each entry of the dictionary once, every key
    before the keys that follow it. *)
Lemma sorted_items (stock : gmap string Z) :
  let l := merge_sort key_le (map_to_list stock) in
  StronglySorted key_le l ∧
  NoDup l.*1 ∧
  (∀ k q, (k, q) ∈ l ↔ stock !! k = Some q) ∧
  length l = size stock.
Proof.
  intros l.
  assert (l ≡ₚ map_to_list stock) as Hperm by apply merge_sort_Permutation.
  split; [apply StronglySorted_merge_sort; apply _|].
  split; [rewrite Hperm; apply NoDup_fst_map_to_list|].
  split.
  - intros k q. rewrite Hperm. apply elem_of_map_to_list.
  - rewrite Hperm. by rewrite length_map_to_list.
Qed.


(** ** Saving *)

Lemma save_data_refused file_path w e :
  open_error file_path = Some e → save_data file_path w = (Raise e, w).
Proof.
  intros Hnul. unfold save_data, try_except, json_dump.
  unfold bind at 1. unfold get_stock. unfold bind at 1. rewrite Hnul.
  by destruct (open_error_class _ _ Hnul) as [-> | ->].
Qed.

Lemma save_data_failed file_path w :
  open_error file_path = None → ¬ can_write (disk w) file_path →
  save_data file_path w =
    (Ret tt, World (stock_data w) (disk w)
               (console w ++ [(ERROR, SaveFailed file_path)])).
Proof.
  intros Hnul Hcannot. unfold can_write in Hcannot.
  unfold save_data, try_except, json_dump.
  unfold bind at 1. unfold get_stock. unfold bind at 1. rewrite Hnul.
  destruct (decide (file_path = "")) as [->|Hpath]; [done|].
  rewrite bool_decide_eq_false_2 by done.
  destruct (disk w !! file_path) as [[readable [] c|]|]; try done.
  all: by destruct Hcannot.
Qed.

(** X8: [save_data] never changes the dictionary or another path, and it
    raises in one case only: a path that [open] refuses (a NUL character, a
    surrogate that cannot be encoded) with a [ValueError] that
    [except OSError] does not catch; nothing has changed then.  For every
    other path it returns normally.
    When the path can be written, the file afterwards holds the JSON object
    of the dictionary and keeps its read permission, and [Saved] is logged;
    with keys that come back from JSON as they are, that object lists the
    entries of the dictionary, each once, in ascending key order.  When the
    path cannot be written, no file changes and [SaveFailed] is logged. *)
Theorem save_data_outcome (file_path : string) (w : world) :
  stock_data (save_data file_path w).2 = stock_data w ∧
  (∀ other, other ≠ file_path →
     disk (save_data file_path w).2 !! other = disk w !! other) ∧
  (∀ e, open_error file_path = Some e → save_data file_path w = (Raise e, w)) ∧
  (open_error file_path = None →
     ∃ w', save_data file_path w = (Ret tt, w') ∧
       (can_write (disk w) file_path →
          (∃ readable,
             disk w' !! file_path
               = Some (File readable true (Document (json_object (stock_data w)))) ∧
             ∀ n, disk w !! file_path = Some n → ∃ c, n = File readable true c) ∧
          console w' = console w ++ [(INFO, Saved file_path)] ∧
          (json_stable (stock_data w) →
             ∃ l, json_object (stock_data w) = VDict (encode <$> l) ∧
                  StronglySorted key_le l ∧ NoDup l.*1 ∧
                  ∀ k q, (k, q) ∈ l ↔ stock_data w !! k = Some q)) ∧
       (¬ can_write (disk w) file_path →
          disk w' = disk w ∧
          console w' = console w ++ [(ERROR, SaveFailed file_path)])).
Proof.
  destruct (open_error file_path) as [e|] eqn:Hnul.
  { rewrite (save_data_refused _ _ _ Hnul). cbn [fst snd].
    split; [done|]. split; [done|]. split; [by intros ? [= <-]|done]. }
  destruct (decide (can_write (disk w) file_path)) as [Hwrite|Hcannot].
  - destruct (save_data_ok file_path w Hwrite) as (readable & -> & _ & Hnode).
    cbn [fst snd stock_data disk]. split; [done|].
    split; [intros other Hne; by rewrite lookup_insert_ne|]. split; [done|].
    intros _. eexists. split; [reflexivity|]. cbn [disk console].
    split; [|done]. intros _. split; [|split; [done|]].
    + exists readable. by rewrite lookup_insert_eq.
    + intros Hstable. exists (merge_sort key_le (map_to_list (stock_data w))).
      unfold json_object. rewrite json_members_stable by done.
      split; [done|].
      by destruct (sorted_items (stock_data w)) as (? & ? & ? & _).
  - rewrite (save_data_failed _ _ Hnul Hcannot).
    cbn [fst snd stock_data disk]. split; [done|]. split; [done|]. split; [done|].
    intros _. eexists. split; [reflexivity|]. by split.
Qed.

(** ** Loading, whatever the file holds *)

Lemma sanitize_loop_raise items : ∀ sanitized w e w',
  for_each items sanitize_entry sanitized w = (Raise e, w') →
  ∃ entry, entry ∈ items ∧ judge entry = Failed e.
Proof.
  induction items as [|entry items IH]; intros sanitized w e w'; [done|].
  cbn [for_each]. unfold bind at 1. rewrite sanitize_entry_judge.
  destruct (judge entry) as [k q|m|e'] eqn:Hjudge.
  - intros (entry' & Hin & Hfailed)%IH. exists entry'. split; [by right|done].
  - intros (entry' & Hin & Hfailed)%IH. exists entry'. split; [by right|done].
  - intros [= <- <-]. exists entry. split; [by left|done].
Qed.

Lemma sanitize_loop_failed items : ∀ sanitized w entry e,
  entry ∈ items → judge entry = Failed e →
  ∃ e' w', for_each items sanitize_entry sanitized w = (Raise e', w').
Proof.
  induction items as [|first items IH]; intros sanitized w entry e Hin Hfailed.
  - by apply elem_of_nil in Hin.
  - cbn [for_each]. unfold bind at 1. rewrite sanitize_entry_judge.
    apply elem_of_cons in Hin as [<-|Hin].
    + rewrite Hfailed. by eexists _, _.
    + destruct (judge first) as [k q|m|e']; [by eapply IH..|by eexists _, _].
Qed.

(** Whether the loop completes, and with which exception it stops, depends
    on the items alone. *)
Lemma sanitize_loop_outcome items : ∀ sanitized w1 w2,
  (for_each items sanitize_entry sanitized w1).1
  = (for_each items sanitize_entry sanitized w2).1.
Proof.
  induction items as [|entry items IH]; intros sanitized w1 w2; [done|].
  cbn [for_each]. unfold bind. rewrite !sanitize_entry_judge.
  destruct (judge entry) as [k q|m|e]; [apply IH|apply IH|done].
Qed.

(** X9: [load_data] raises in three cases, and in no other: [open] refuses
    the path (a NUL character, a surrogate that cannot be encoded) with a
    [ValueError]; the file is read but [json.load] cannot decode it (bytes
    that are not UTF-8 give [UnicodeDecodeError], JSON nested too deep gives
    [RecursionError]); a value under a string key of the loaded object is
    an infinite float, on which [int] raises [OverflowError].  No [except]
    clause names these.  In each case the load is abandoned before the
    dictionary is touched: dictionary and files are as before.  (The limit
    of the interpreter on the digits of an integer is apart.) *)
Theorem load_data_raise_cases (file_path : string) (w : world) :
  (∀ e w', load_data file_path w = (Raise e, w') →
     stock_data w' = stock_data w ∧ disk w' = disk w ∧
     (open_error file_path = Some e ∨
      (∃ writable c,
         disk w !! file_path = Some (File true writable c) ∧
         decode_error c = Some e) ∨
      (e = OverflowError ∧
       ∃ writable items k s,
         disk w !! file_path = Some (File true writable (Document (VDict items))) ∧
         (VStr k, VFloat (S754_infinity s)) ∈ items))) ∧
  (∀ e, open_error file_path = Some e → load_data file_path w = (Raise e, w)) ∧
  (open_error file_path = None →
     (∀ writable c e,
        disk w !! file_path = Some (File true writable c) →
        decode_error c = Some e →
        load_data file_path w = (Raise e, w)) ∧
     (∀ writable items k s,
        disk w !! file_path = Some (File true writable (Document (VDict items))) →
        (VStr k, VFloat (S754_infinity s)) ∈ items →
        ∃ w', load_data file_path w = (Raise OverflowError, w') ∧
              stock_data w' = stock_data w)).
Proof.
  split; [|split].
  - intros e w' Hrun.
    destruct (load_data_cases file_path w)
      as [(e0 & Hnul & Hraise)|[(_ & wr & c & e0 & Hfile & Herror & Hraise)
         |[[Hvalid [record Hfail]]|(Hvalid & wr & items & Hfile)]]].
    + rewrite Hraise in Hrun. injection Hrun as <- <-.
      split; [done|]. split; [done|]. by left.
    + rewrite Hraise in Hrun. injection Hrun as <- <-.
      split; [done|]. split; [done|]. right. left. by exists wr, c.
    + by rewrite (load_data_fails_early _ _ _ Hvalid Hfail) in Hrun.
    + rewrite (load_data_object _ _ _ _ Hvalid Hfile) in Hrun.
      destruct (for_each items sanitize_entry ∅ w) as [[sanitized|e'] w1] eqn:Hloop;
        [discriminate|]. injection Hrun as -> ->.
      destruct (sanitize_loop _ _ _ _ _ Hloop) as (Hstock & Hdisk & _).
      apply sanitize_loop_raise in Hloop as (entry & Hin & Hfailed).
      apply judge_failed in Hfailed as (-> & k & s & ->).
      split; [done|]. split; [done|]. right. right. split; [done|].
      by exists wr, items, k, s.
  - intros e. apply load_data_refused.
  - intros Hvalid. split; [intros wr c e Hfile Herror; by eapply load_data_undecodable|].
    intros wr items k s Hfile Hin.
    rewrite (load_data_object _ _ _ _ Hvalid Hfile).
    destruct (sanitize_loop_failed items ∅ w _ OverflowError Hin eq_refl)
      as (e & w1 & Hloop).
    rewrite Hloop.
    destruct (sanitize_loop _ _ _ _ _ Hloop) as (Hstock & _ & _).
    apply sanitize_loop_raise in Hloop as (entry & _ & Hfailed).
    apply judge_failed in Hfailed as [-> _]. by eexists.
Qed.

Lemma load_data_disk file_path w : disk (load_data file_path w).2 = disk w.
Proof.
  destruct (load_data_cases file_path w)
    as [(e & _ & ->)|[(_ & wr & c & e & _ & _ & ->)
       |[[Hvalid [record Hfail]]|(Hvalid & wr & items & Hfile)]]];
    [done|done| |].
  - by rewrite (load_data_fails_early _ _ _ Hvalid Hfail).
  - rewrite (load_data_object _ _ _ _ Hvalid Hfile).
    destruct (for_each items sanitize_entry ∅ w) as [[sanitized|e] w1] eqn:Hloop;
      by apply sanitize_loop in Hloop as (_ & Hdisk & _).
Qed.

(** X10: [load_data] never writes a file, and loading again changes nothing
    further: the second load ends as the first did and leaves the dictionary
    the first load left. *)
Theorem load_data_idempotent (file_path : string) (w : world) :
  disk (load_data file_path w).2 = disk w ∧
  (load_data file_path (load_data file_path w).2).1 = (load_data file_path w).1 ∧
  stock_data (load_data file_path (load_data file_path w).2).2
    = stock_data (load_data file_path w).2.
Proof.
  pose proof (load_data_disk file_path w) as Hdisk. split; [done|].
  destruct (load_data file_path w) as [o w1] eqn:Hrun. cbn [fst snd] in *.
  destruct (load_data_cases file_path w)
    as [(e & _ & Hraise)|[(_ & wr & c & e & _ & _ & Hraise)
       |[[Hvalid [record Hfail]]|(Hvalid & wr & items & Hfile)]]].
  - rewrite Hraise in Hrun. injection Hrun as <- <-. by rewrite Hraise.
  - rewrite Hraise in Hrun. injection Hrun as <- <-. by rewrite Hraise.
  - assert (fails_early file_path (disk w1 !! file_path) record) as Hfail1
      by by rewrite Hdisk.
    rewrite (load_data_fails_early _ _ _ Hvalid Hfail1).
    rewrite (load_data_fails_early _ _ _ Hvalid Hfail) in Hrun.
    by injection Hrun as <- <-.
  - assert (disk w1 !! file_path
            = Some (File true wr (Document (VDict items)))) as Hfile1
      by by rewrite Hdisk.
    rewrite (load_data_object _ _ _ _ Hvalid Hfile1).
    rewrite (load_data_object _ _ _ _ Hvalid Hfile) in Hrun.
    pose proof (sanitize_loop_outcome items ∅ w1 w) as Hsame.
    destruct (for_each items sanitize_entry ∅ w1) as [[s1|e1] w1'] eqn:Hloop1;
      destruct (for_each items sanitize_entry ∅ w) as [[s|e] w'] eqn:Hloop;
      simpl in Hsame; try discriminate; injection Hrun as <- <-; simpl.
    + apply sanitize_loop in Hloop1 as (_ & _ & Hret1).
      apply sanitize_loop in Hloop as (_ & _ & Hret).
      destruct (Hret1 s1 eq_refl) as [-> _]. destruct (Hret s eq_refl) as [-> _].
      done.
    + apply sanitize_loop in Hloop1 as (Hstock1 & _ & _).
      by injection Hsame as ->.
Qed.

Lemma kept_warnings_length items :
  Forall (λ entry, ∀ e, judge entry ≠ Failed e) items →
  (length (kept items) + length (warnings items) = length items)%nat.
Proof.
  induction items as [|entry items IH]; [done|].
  intros [Hentry Hitems]%Forall_cons. specialize (IH Hitems).
  rewrite kept_cons, warnings_cons.
  destruct (judge entry) as [k q|m|e]; simpl; [lia|lia|by destruct (Hentry e)].
Qed.

Lemma warnings_level items : Forall (λ r : level * message, r.1 = WARNING) (warnings items).
Proof.
  apply Forall_forall. intros [l m] Hin. unfold warnings in Hin.
  apply list_elem_of_omap in Hin as (entry & _ & Hjudge).
  simpl. destruct (judge entry); congruence.
Qed.

(** X11: A load that completes accounts for every item of the object: besides
    the final [Loaded] record it logs warnings only, and the number of
    entries in the new dictionary plus the number of warnings is the number
    of items, so that each item was either stored or reported. *)
Theorem load_data_accounts_for_items (file_path : string) (w : world)
    (writable : bool) (items : list (pyval * pyval)) (w' : world) :
  disk w !! file_path = Some (File true writable (Document (VDict items))) →
  NoDup items.*1 →
  load_data file_path w = (Ret tt, w') →
  ∃ skipped,
    console w' = console w ++ skipped ++ [(INFO, Loaded file_path)] ∧
    Forall (λ r : level * message, r.1 = WARNING) skipped ∧
    (size (stock_data w') + length skipped = length items)%nat.
Proof.
  intros Hfile Hnodup Hrun.
  destruct (load_data_result _ _ _ _ _ Hfile Hrun) as (Hstock & _ & Hconsole).
  exists (warnings items). split; [done|]. split; [apply warnings_level|].
  rewrite Hstock, (right_id_L ∅ (∪)), foldl_store by by apply kept_NoDup.
  rewrite (right_id_L ∅ (∪)), map_size_list_to_map by by apply kept_NoDup.
  apply kept_warnings_length.
  pose proof (load_data_completed _ _ _ Hrun) as Hvalid.
  rewrite (load_data_object _ _ _ _ Hvalid Hfile) in Hrun.
  destruct (for_each items sanitize_entry ∅ w) as [[sanitized|e] w1] eqn:Hloop;
    [|discriminate].
  by apply sanitize_loop_completed in Hloop.
Qed.

Lemma load_data_accounts_for_items_witness :
  ∃ skipped,
    console (load_data "inventory.json"
               (World ∅ {["inventory.json" :=
                            File true true (Document (VDict example_items))]} [])).2
      = [] ++ skipped ++ [(INFO, Loaded "inventory.json")] ∧
    Forall (λ r : level * message, r.1 = WARNING) skipped ∧
    (size (stock_data
             (load_data "inventory.json"
                (World ∅ {["inventory.json" :=
                             File true true (Document (VDict example_items))]} [])).2)
       + length skipped = 3)%nat.
Proof.
  apply (load_data_accounts_for_items "inventory.json"
           (World ∅ {["inventory.json" :=
                        File true true (Document (VDict example_items))]} [])
           true example_items).
  - reflexivity.
  - repeat (apply NoDup_cons; split;
              [by rewrite ?elem_of_cons, elem_of_nil; intuition discriminate|]).
    apply NoDup_nil_2.
  - reflexivity.
Defined.

(** ** The empty item name *)

Lemma empty_name_untouched item qty logs now w :
  stock_data (add_item item qty logs now w).2 !! "" = stock_data w !! "" ∧
  stock_data (remove_item item qty w).2 !! "" = stock_data w !! "".
Proof.
  unfold add_item, remove_item.
  destruct item as [| | | |[|c name]| |]; try done.
  destruct (int_value qty) as [q|]; [|done].
  destruct (q <? 0); [done|].
  unfold bind, get_stock. cbn [set_stock logging ret fst snd stock_data].
  split; [by rewrite lookup_insert_ne|].
  destruct (stock_data w !! String c name) as [current|]; [|done].
  destruct (current <=? q); cbn [set_stock logging ret fst snd stock_data].
  - by rewrite lookup_delete_ne.
  - by rewrite lookup_insert_ne.
Qed.

(** X12: [load_data] accepts the empty string as a key, which the item functions
    refuse as a name: once a load has stored a quantity under it, [get_qty]
    cannot read the entry, [add_item] and [remove_item] can neither change
    nor remove it whatever they are called with, and [check_low_items]
    reports it when its quantity is below the threshold. *)
Theorem empty_name_entry_is_stuck (file_path : string) (w : world)
    (writable : bool) (items : list (pyval * pyval)) (q : Z) (w' : world) :
  disk w !! file_path = Some (File true writable (Document (VDict items))) →
  NoDup items.*1 →
  (VStr "", VInt q) ∈ items → 0 ≤ q →
  load_data file_path w = (Ret tt, w') →
  stock_data w' !! "" = Some q ∧
  get_qty (VStr "") w' = (Raise TypeError, w') ∧
  (∀ item qty logs now,
     stock_data (add_item item qty logs now w').2 !! "" = Some q ∧
     stock_data (remove_item item qty w').2 !! "" = Some q) ∧
  (∀ t low, q < t → check_low_items (VInt t) w' = (Ret low, w') → "" ∈ low).
Proof.
  intros Hfile Hnodup Hin Hq Hrun.
  pose proof (load_data_entry _ _ _ _ _ _ _ Hfile Hnodup Hin Hrun) as Hentry.
  unfold judge in Hentry. cbn [fst snd py_int] in Hentry.
  assert ((q <? 0) = false) as Hlt by lia. rewrite Hlt in Hentry.
  split; [done|]. split; [done|]. split.
  - intros item qty logs now.
    destruct (empty_name_untouched item qty logs now w') as [-> ->]. done.
  - intros t low Hbelow. unfold check_low_items. cbn [int_value].
    destruct (t <? 0); [discriminate|]. unfold bind, get_stock, ret.
    intros [= <-]. apply low_items_elem. by exists q.
Qed.

Lemma empty_name_entry_is_stuck_witness :
  stock_data
    (remove_item (VStr "") (VInt 1)
       (load_data "inventory.json"
          (World ∅ {["inventory.json" :=
                       File true true (Document (VDict [(VStr "", VInt 1)]))]} [])).2).2
    !! "" = Some 1.
Proof.
  destruct (empty_name_entry_is_stuck "inventory.json"
              (World ∅ {["inventory.json" :=
                           File true true (Document (VDict [(VStr "", VInt 1)]))]} [])
              true [(VStr "", VInt 1)] 1
              (load_data "inventory.json"
                 (World ∅ {["inventory.json" :=
                              File true true (Document (VDict [(VStr "", VInt 1)]))]} [])).2)
    as (_ & _ & Hstuck & _).
  - reflexivity.
  - apply NoDup_singleton.
  - apply list_elem_of_singleton. reflexivity.
  - lia.
  - reflexivity.
  - exact (proj2 (Hstuck (VStr "") (VInt 1) None "t")).
Defined.

(** ** Low stock, by threshold *)

(** X13: Raising the threshold never loses an item: what [check_low_items]
    reports for a threshold it reports for every larger one; and with the
    threshold 0 it reports nothing as long as no quantity is negative. *)
Theorem check_low_items_monotone (t1 t2 : Z) (w : world) :
  0 ≤ t1 → t1 ≤ t2 →
  ∃ low1 low2,
    check_low_items (VInt t1) w = (Ret low1, w) ∧
    check_low_items (VInt t2) w = (Ret low2, w) ∧
    low1 ⊆ low2 ∧
    (stock_nonneg (stock_data w) → t1 = 0 → low1 = []).
Proof.
  intros Ht1 Ht2. unfold check_low_items. cbn [int_value].
  assert ((t1 <? 0) = false) as -> by lia.
  assert ((t2 <? 0) = false) as -> by lia.
  eexists _, _. split; [reflexivity|]. split; [reflexivity|]. split.
  - intros item (q & Hq & Hlt)%low_items_elem. apply low_items_elem.
    exists q. split; [done|lia].
  - intros Hnonneg ->.
    destruct (filter _ _).*1 as [|item low] eqn:Hlow; [done|].
    assert (item ∈ item :: low) as Hin by by left.
    rewrite <-Hlow in Hin. apply low_items_elem in Hin as (q & Hq & Hlt).
    apply Hnonneg in Hq. lia.
Qed.

Lemma check_low_items_monotone_witness :
  ∃ low1 low2,
    check_low_items (VInt 3) (World {["apple" := 10; "banana" := 2]} ∅ [])
      = (Ret low1, World {["apple" := 10; "banana" := 2]} ∅ []) ∧
    check_low_items (VInt 11) (World {["apple" := 10; "banana" := 2]} ∅ [])
      = (Ret low2, World {["apple" := 10; "banana" := 2]} ∅ []) ∧
    low1 ⊆ low2.
Proof.
  destruct (check_low_items_monotone 3 11 (World {["apple" := 10; "banana" := 2]} ∅ []))
    as (low1 & low2 & H1 & H2 & Hsub & _); [lia|lia|].
  exists low1, low2. split; [exact H1|]. split; [exact H2|exact Hsub].
Defined.

(** ** The demonstration run *)











